(** * git-module: commit metadata, code search and collaborator statistics

    A shallow embedding of [commit.go] and of the code-search file of the
    [git] package.  Every external [git] invocation is replaced by what it
    hands back to the Go code (its standard output and its error), so each
    Go function becomes a pure function of that result.  Go strings are
    byte strings ([string], one [ascii] per byte), Go [int] and [int64] are
    [Z] with the 64-bit wrap-around written out, and a run-time panic is an
    explicit outcome. *)

From Stdlib Require Import ZArith Ascii String List Lia Bool.
From stdpp Require Import base option list gmap strings.
Import ListNotations.

Local Open Scope string_scope.
Local Open Scope Z_scope.

(** ** Go run-time values *)

Module Go.

(** Errors that travel through the modelled functions. *)
Inductive error : Type :=
| ErrNotExist (id relpath : string)      (* the package's "not exist" error *)
| EOF                                    (* io.EOF *)
| ErrProcess (msg : string)              (* a failed external invocation *)
| ErrSyntax (fn num : string)            (* strconv.NumError, ErrSyntax *)
| ErrRange (fn num : string)             (* strconv.NumError, ErrRange *)
| ErrDiag (e : error) (stderr : string). (* an error with diagnostics attached *)

(** Run-time panics of slice and index expressions. *)
Inductive panic : Type :=
| IndexOutOfRange (i len : Z)
| SliceBoundsOutOfRange (lo hi : Z)
| NilDereference.

(** What a call does: it returns, the goroutine panics, or it waits for
    ever. *)
Inductive outcome (A : Type) : Type :=
| Returned (a : A)
| Panicked (p : panic)
| Blocked.
Arguments Returned {A} a.
Arguments Panicked {A} p.
Arguments Blocked {A}.

#[export] Instance outcome_ret : MRet outcome := fun A a => Returned a.
#[export] Instance outcome_bind : MBind outcome := fun A B k m =>
  match m with
  | Returned a => k a
  | Panicked p => Panicked p
  | Blocked => Blocked
  end.

Definition min_int64 : Z := - 2 ^ 63.
Definition max_int64 : Z := 2 ^ 63 - 1.

(** Two's complement wrap-around of 64-bit signed arithmetic. *)
Definition wrap64 (z : Z) : Z := (z + 2 ^ 63) mod 2 ^ 64 - 2 ^ 63.

Definition add64 (a b : Z) : Z := wrap64 (a + b).
Definition sub64 (a b : Z) : Z := wrap64 (a - b).
Definition mul64 (a b : Z) : Z := wrap64 (a * b).

(** [s[i]] on a slice: a panic outside [0, len). *)
Definition index {A} (l : list A) (i : Z) : outcome A :=
  if (0 <=? i) && (i <? Z.of_nat (length l)) then
    match l !! Z.to_nat i with
    | Some a => Returned a
    | None => Panicked (IndexOutOfRange i (Z.of_nat (length l)))
    end
  else Panicked (IndexOutOfRange i (Z.of_nat (length l))).

(** [s[lo:hi]] on a slice whose capacity is its length. *)
Definition slice {A} (l : list A) (lo hi : Z) : outcome (list A) :=
  if (0 <=? lo) && (lo <=? hi) && (hi <=? Z.of_nat (length l)) then
    Returned (take (Z.to_nat (hi - lo)) (drop (Z.to_nat lo) l))
  else Panicked (SliceBoundsOutOfRange lo hi).

End Go.
Export Go.

(** ** The [strings], [bufio], [regexp] and [strconv] functions the code calls *)

Module Text.

Definition nl : ascii := "010"%char.
Definition NL : string := String nl EmptyString.

(** A double quote, for the command lines that contain one. *)
Definition DQ : string := String "034"%char EmptyString.

(** [strings.HasPrefix s p]. *)
Definition HasPrefix (s p : string) : bool := String.prefix p s.

(** Scanning for the next separator: the head of the result is the segment
    being read, [skip] counts the separator bytes still to be dropped. *)
Fixpoint split_aux (sep : string) (skip : nat) (s : string) : list string :=
  match s with
  | EmptyString => [EmptyString]
  | String c s' =>
      match skip with
      | S k => split_aux sep k s'
      | O =>
          if String.prefix sep s
          then EmptyString :: split_aux sep (String.length sep - 1) s'
          else match split_aux sep 0 s' with
               | cur :: rest => String c cur :: rest
               | [] => [String c EmptyString]
               end
      end
  end.

(** [strings.Split s sep] for a non-empty separator: the pieces between the
    leftmost non-overlapping occurrences of [sep], always at least one. *)
Definition Split (s sep : string) : list string := split_aux sep 0 s.

(** The text before and after the leftmost occurrence of [sep]. *)
Fixpoint cut (sep : string) (s : string) : option (string * string) :=
  if String.prefix sep s
  then Some (EmptyString, String.substring (String.length sep) (String.length s) s)
  else match s with
       | EmptyString => None
       | String c s' =>
           match cut sep s' with
           | Some (a, b) => Some (String c a, b)
           | None => None
           end
       end.

(** [strings.SplitN s sep n] for [n >= 0] and a non-empty separator. *)
Fixpoint SplitN (s sep : string) (n : nat) : list string :=
  match n with
  | O => []
  | S O => [s]
  | S n' =>
      match cut sep s with
      | Some (a, b) => a :: SplitN b sep n'
      | None => [s]
      end
  end.

(** [strings.Count s (string c)] for a single byte. *)
Fixpoint count_byte (c : ascii) (s : string) : nat :=
  match s with
  | EmptyString => O
  | String d s' => (if Ascii.eqb d c then 1 else 0) + count_byte c s'
  end.

Fixpoint contains_byte (c : ascii) (s : string) : bool :=
  match s with
  | EmptyString => false
  | String d s' => Ascii.eqb d c || contains_byte c s'
  end.

Definition rev_string (s : string) : string :=
  string_of_list_ascii (rev (list_ascii_of_string s)).

(** [strings.Trim s " "]: spaces cut off both ends. *)
Fixpoint trim_left_byte (c : ascii) (s : string) : string :=
  match s with
  | String d s' => if Ascii.eqb d c then trim_left_byte c s' else s
  | EmptyString => EmptyString
  end.

Definition Trim (s : string) (c : ascii) : string :=
  rev_string (trim_left_byte c (rev_string (trim_left_byte c s))).

(** [bufio.Reader.ReadString('\n')] on a fresh reader over [s]: the text up
    to and including the first newline, or everything with [EOF]. *)
Fixpoint ReadString (s : string) : string * option error :=
  match s with
  | EmptyString => (EmptyString, Some EOF)
  | String c s' =>
      if Ascii.eqb c nl then (String c EmptyString, None)
      else let '(h, e) := ReadString s' in (String c h, e)
  end.

(** The field or run collected in [cur], last byte first, if there is one. *)
Definition flush (cur : list ascii) : list string :=
  match cur with
  | [] => []
  | _ => [string_of_list_ascii (rev cur)]
  end.

Definition byte (c : ascii) : N := N_of_ascii c.

(** Width in bytes of the white-space rune [s] starts with, [0] when it
    starts with none.  These are the runes of [unicode.IsSpace]: the six
    ASCII ones, U+0085, U+00A0, U+1680, U+2000..U+200A, U+2028, U+2029,
    U+202F, U+205F and U+3000 in their UTF-8 encodings.  The lead bytes
    C2, E1, E2, E3 are never continuation bytes, so Go's rune decoding
    meets each of them at the start of a rune. *)
Definition space_width (s : string) : nat :=
  match s with
  | EmptyString => 0
  | String c r =>
      let b := byte c in
      if ((9 <=? b) && (b <=? 13) || (b =? 32))%N then 1
      else match r with
           | EmptyString => 0
           | String d r' =>
               let b1 := byte d in
               if (b =? 194)%N then
                 if ((b1 =? 133) || (b1 =? 160))%N then 2 else 0
               else match r' with
                    | EmptyString => 0
                    | String e _ =>
                        let b2 := byte e in
                        if ((b =? 225) && (b1 =? 154) && (b2 =? 128))%N then 3
                        else if ((b =? 226) && (b1 =? 128) &&
                                 ((128 <=? b2) && (b2 <=? 138) || (b2 =? 168)
                                  || (b2 =? 169) || (b2 =? 175)))%N then 3
                        else if ((b =? 226) && (b1 =? 129) && (b2 =? 159))%N then 3
                        else if ((b =? 227) && (b1 =? 128) && (b2 =? 128))%N then 3
                        else 0
                    end
           end
  end.

(** The same for the rune a string ends with; [r] is the string reversed. *)
Definition space_width_rev (r : string) : nat :=
  match r with
  | EmptyString => 0
  | String c _ =>
      let b := byte c in
      if ((9 <=? b) && (b <=? 13) || (b =? 32))%N then 1
      else match r with
           | String e (String d (String c0 _)) =>
               if Nat.eqb (space_width (String d (String e EmptyString))) 2 then 2
               else if Nat.eqb (space_width (String c0 (String d (String e EmptyString)))) 3
                    then 3 else 0
           | String e (String d EmptyString) =>
               if Nat.eqb (space_width (String d (String e EmptyString))) 2 then 2 else 0
           | _ => 0
           end
  end.

(** [strings.Fields]: the maximal runs of bytes between white-space runes. *)
Fixpoint fields_aux (s : string) (skip : nat) (cur : list ascii) : list string :=
  match s with
  | EmptyString => flush cur
  | String c s' =>
      match skip with
      | S k => fields_aux s' k cur
      | O =>
          match space_width s with
          | O => fields_aux s' 0 (c :: cur)
          | S w => (flush cur ++ fields_aux s' w [])%list
          end
      end
  end.

Definition Fields (s : string) : list string := fields_aux s 0 [].

Fixpoint drop_bytes (n : nat) (s : string) : string :=
  match n, s with
  | S k, String _ s' => drop_bytes k s'
  | _, _ => s
  end.

(** Leading white-space runes removed; [fuel] bounds the number of runes. *)
Fixpoint trim_left_space (fuel : nat) (s : string) : string :=
  match fuel with
  | O => s
  | S k =>
      match space_width s with
      | O => s
      | w => trim_left_space k (drop_bytes w s)
      end
  end.

Fixpoint trim_right_space_rev (fuel : nat) (r : string) : string :=
  match fuel with
  | O => r
  | S k =>
      match space_width_rev r with
      | O => r
      | w => trim_right_space_rev k (drop_bytes w r)
      end
  end.

(** [strings.TrimSpace]. *)
Definition TrimSpace (s : string) : string :=
  let l := trim_left_space (String.length s) s in
  rev_string (trim_right_space_rev (String.length l) (rev_string l)).

Definition cr : ascii := "013"%char.

(** [dropCR] of [bufio], on the reversed line. *)
Definition dropCR_rev (cur : list ascii) : list ascii :=
  match cur with
  | c :: cur' => if Ascii.eqb c cr then cur' else cur
  | [] => []
  end.

(** [bufio.MaxScanTokenSize]. *)
Definition MaxScanTokenSize : N := 65536.

(** The tokens a [bufio.Scanner] with the default split function
    ([ScanLines]) and the default buffer delivers over the whole input:
    newline-terminated lines and a non-empty last fragment, a trailing
    carriage return dropped.  A line that does not fit the buffer ends the
    scan ([Scan] returns false, the error is only kept in the scanner). *)
Fixpoint scan_aux (s : string) (cur : list ascii) (n : N) : list string :=
  match s with
  | EmptyString =>
      if (n =? 0)%N then [] else [string_of_list_ascii (rev (dropCR_rev cur))]
  | String c s' =>
      if Ascii.eqb c nl
      then string_of_list_ascii (rev (dropCR_rev cur)) :: scan_aux s' [] 0%N
      else if (MaxScanTokenSize <=? n + 1)%N then []
      else scan_aux s' (c :: cur) (n + 1)%N
  end.

Definition ScanLines (s : string) : list string := scan_aux s [] 0%N.

(** Whether the scanner gives up on a line that does not fit the buffer
    while input is left unread: [n] bytes of the current line are held. *)
Fixpoint stuck_aux (s : string) (n : N) : bool :=
  match s with
  | EmptyString => false
  | String c s' =>
      if Ascii.eqb c nl then stuck_aux s' 0%N
      else if (MaxScanTokenSize <=? n + 1)%N
           then match s' with EmptyString => false | _ => true end
           else stuck_aux s' (n + 1)%N
  end.

Definition ScanStuck (s : string) : bool := stuck_aux s 0%N.

Definition is_digit (c : ascii) : bool := ((48 <=? byte c) && (byte c <=? 57))%N.

(** [regexp.MustCompile("[0-9]+").FindAllString(s, -1)]: the maximal runs
    of decimal digits, left to right. *)
Fixpoint runs_aux (s : string) (cur : list ascii) : list string :=
  match s with
  | EmptyString => flush cur
  | String c s' =>
      if is_digit c then runs_aux s' (c :: cur)
      else (flush cur ++ runs_aux s' [])%list
  end.

Definition FindAllDigits (s : string) : list string := runs_aux s [].

Inductive num_error : Type := NumSyntax | NumRange.

Definition max_uint64 : Z := 2 ^ 64 - 1.

(** The digit loop of [strconv.ParseUint s 10 64]: it stops at the first
    byte that is no digit and at the first overflow, whichever is first. *)
Fixpoint parse_uint_aux (s : string) (n : Z) : Z * option num_error :=
  match s with
  | EmptyString => (n, None)
  | String c s' =>
      if is_digit c then
        if max_uint64 / 10 + 1 <=? n then (max_uint64, Some NumRange)
        else
          let n1 := n * 10 + (Z.of_N (byte c) - 48) in
          if max_uint64 <? n1 then (max_uint64, Some NumRange)
          else parse_uint_aux s' n1
      else (0, Some NumSyntax)
  end.

Definition ParseUint (s : string) : Z * option num_error :=
  match s with
  | EmptyString => (0, Some NumSyntax)
  | _ => parse_uint_aux s 0
  end.

Definition num_err (kind : num_error) (s : string) : error :=
  match kind with
  | NumSyntax => ErrSyntax "ParseInt" s
  | NumRange => ErrRange "ParseInt" s
  end.

(** [strconv.ParseInt s 10 64]: zero on a syntax error, the nearest bound
    on a range error. *)
Definition ParseInt (s : string) : Z * option error :=
  match s with
  | EmptyString => (0, Some (num_err NumSyntax s))
  | String c s' =>
      let neg := Ascii.eqb c "-" in
      let digits := if Ascii.eqb c "+" || neg then s' else s in
      match ParseUint digits with
      | (_, Some NumSyntax) => (0, Some (num_err NumSyntax s))
      | (un, _) =>
          if negb neg && (2 ^ 63 <=? un) then (max_int64, Some (num_err NumRange s))
          else if neg && (2 ^ 63 <? un) then (min_int64, Some (num_err NumRange s))
          else (if neg then - un else un, None)
      end
  end.

End Text.
Export Text.

(** ** The external tool

    [command.go] is not among the sources; a command is its argument vector
    and the three ways of running it are the fields of a [Runner]: what
    they return is whatever the external process produced. *)

Module Exec.

Definition Command : Type := list string.

Definition NewCommand (args : list string) : Command := args.
Definition AddArguments (c : Command) (args : list string) : Command := (c ++ args)%list.

Record Runner : Type := {
  (* stdout and error of a shell pipeline *)
  RunPipesInDir : Command -> string -> string * option error;
  (* stdout and error of one invocation *)
  RunInDir : Command -> string -> string * option error;
  (* bytes written to the stdout writer, to the stderr writer, and the error *)
  RunInDirPipeline : Command -> string -> string * string * option error
}.

End Exec.
Export Exec.

(** ** Code search *)

Module CodeSearch.

Record Match : Type := {
  CommitID : string;
  Path : string;
  Content : string
}.

(** [Results] is a Go slice; the nil slice and the empty slice are both the
    empty list, which is sound here because the code only ever returns an
    empty result as nil. *)
Record MatchesResults : Type := {
  NumberMatches : Z;
  Results : list Match
}.

Record RepoSearchOptions : Type := {
  Keyword : string;
  OwnerID : Z;
  OrderBy : string;
  Page : Z;
  PageSize : Z
}.

Definition len (s : string) : Z := Z.of_nat (String.length s).

(** The command line of the count phase. *)
Definition count_command (keyword : string) : Command :=
  NewCommand ["rev-list"; "--all";
              "| xargs git grep -F -c -I '" +:+ keyword +:+ "'"].

(** The command line of the fetch phase. *)
Definition range_command (opts : RepoSearchOptions) : Command :=
  NewCommand ["rev-list"; "--all"; OrderBy opts;
    "| xargs git grep -F -I -i -n --no-color --full-name --break --heading -B 2 -A 2 '"
      +:+ Keyword opts +:+ "'"].

(** What the [range] loop leaves to return: the matches with the error of
    the invocation, or nil with the error of reading a header. *)
Definition finish (err : option error) (r : list Match + error)
  : list Match * option error :=
  match r with
  | inl matches => (matches, err)
  | inr e => ([], Some e)
  end.

Section WithRunner.
Variable git : Runner.

Definition getNumberOfCodeMatches (repoPath keyword : string) : Z * option error :=
  let cmd := count_command keyword in
  let '(stdout, err) := RunPipesInDir git cmd repoPath in
  if len stdout <=? 0 then (0, None)
  else (Z.of_nat (length (Split stdout NL)) - 1, err).

(** The body of the [range] loop: [inr] is the early [return nil, err]. *)
Fixpoint collect (results : list string) (matches : list Match)
  : outcome (list Match + error) :=
  match results with
  | [] => Returned (inl matches)
  | result :: rest =>
      let '(header, rerr) := ReadString result in
      match rerr with
      | Some e => Returned (inr e)
      | None =>
          let info := Split header ":" in
          i0 ← index info 0;
          i1 ← index info 1;
          collect rest (matches ++ [{| CommitID := i0;
                                       Path := Trim i1 " ";
                                       Content := result |}])%list
      end
  end.

(** The upper end of the page window. *)
Definition window_limit (opts : RepoSearchOptions) (n : Z) : Z :=
  if mul64 (Page opts) (PageSize opts) <? n
  then mul64 (Page opts) (PageSize opts)
  else n.

(** The lower end of the page window. *)
Definition window_start (opts : RepoSearchOptions) : Z :=
  mul64 (sub64 (Page opts) 1) (PageSize opts).

Definition getRangeOfMatches (repoPath : string) (opts : RepoSearchOptions)
  : outcome (list Match * option error) :=
  let cmd := range_command opts in
  let '(stdout, err) := RunPipesInDir git cmd repoPath in
  if len stdout <=? 0 then Returned ([], None)
  else
    let results := Split stdout (NL +:+ NL) in
    let limit := window_limit opts (Z.of_nat (length results)) in
    results ← slice results (window_start opts) limit;
    r ← collect results [];
    Returned (finish err r).

Definition ShearchMatchesThisRepo (repoPath : string) (opts : RepoSearchOptions)
  : outcome (option MatchesResults * option error) :=
  let '(n, err) := getNumberOfCodeMatches repoPath (Keyword opts) in
  match err with
  | Some e => Returned (None, Some e)
  | None =>
      '(results, err) ← getRangeOfMatches repoPath opts;
      match err with
      | Some e => Returned (None, Some e)
      | None => Returned (Some {| NumberMatches := n; Results := results |}, None)
      end
  end.

End WithRunner.

End CodeSearch.
Export CodeSearch.

(** ** Commits, parents and submodules *)

Module Commits.

(** Modelled from the spec: the object id type [sha1], declared outside
    the sources; an id is kept in its 40-digit hexadecimal form. *)
Definition sha1 : Type := string.
Definition sha1_zero : sha1 := "0000000000000000000000000000000000000000".

(** Modelled from the spec: an author or committer [Signature], of which
    the code here reads nothing. *)
Record Signature : Type := {
  Email : string;
  Name : string
}.

(** Modelled from the spec: the [SubModule] struct, which the sources use
    but do not declare; the spec gives it a path and a url, and the code
    fills the two fields in that order. *)
Record SubModule : Type := {
  sm_path : string;
  sm_url : string
}.

(** Modelled from the spec: [objectCache], declared outside the sources;
    the submodule cache is a mapping from path to [SubModule], set and
    looked up by path. *)
Abbreviation objectCache := (gmap string SubModule).

(** Modelled from the spec: a tree entry, of which the code only reads the
    blob's data and the error of reading it ([entry.Blob().Data()]). *)
Record TreeEntry : Type := {
  blob_data : string;
  blob_err : option error
}.

(** What the object store keeps for a commit. *)
Record CommitObject : Type := {
  obj_author : option Signature;
  obj_committer : option Signature;
  obj_message : string;
  obj_parents : list sha1;
  obj_entries : gmap string TreeEntry
}.

Record Repository : Type := {
  Path : string;
  objects : gmap string CommitObject
}.

Record Tree : Type := {
  repo : Repository;
  entries : gmap string TreeEntry
}.

(** The embedded [Tree] is the field [tree]; [submoduleCache] is a pointer,
    [None] for nil. *)
Record Commit : Type := {
  tree : Tree;
  ID : sha1;
  Author : option Signature;
  Committer : option Signature;
  CommitMessage : string;
  parents : list sha1;
  submoduleCache : option objectCache
}.

(** Modelled from the spec: [Repository.getCommit], a full commit lookup
    by id that fails with NotFound when the id does not resolve; the
    commit it builds carries the id it was asked for. *)
Definition getCommit (r : Repository) (id : sha1) : Commit + error :=
  match objects r !! id with
  | Some o =>
      inl {| tree := {| repo := r; entries := obj_entries o |};
             ID := id;
             Author := obj_author o;
             Committer := obj_committer o;
             CommitMessage := obj_message o;
             parents := obj_parents o;
             submoduleCache := None |}
  | None => inr (ErrNotExist id "")
  end.

(** Modelled from the spec: [Tree.GetTreeEntryByPath], NotFound when the
    tree has no entry at the path. *)
Definition GetTreeEntryByPath (t : Tree) (relpath : string) : TreeEntry + error :=
  match entries t !! relpath with
  | Some e => inl e
  | None => inr (ErrNotExist "" relpath)
  end.

Definition ParentID (c : Commit) (n : Z) : outcome (sha1 * option error) :=
  if Z.of_nat (length (parents c)) <=? n
  then Returned (sha1_zero, Some (ErrNotExist "" ""))
  else id ← index (parents c) n; Returned (id, None).

Definition Parent (c : Commit) (n : Z) : outcome (option Commit * option error) :=
  '(id, err) ← ParentID c n;
  match err with
  | Some e => Returned (None, Some e)
  | None =>
      match getCommit (repo (tree c)) id with
      | inr e => Returned (None, Some e)
      | inl parent => Returned (Some parent, None)
      end
  end.

Definition ParentCount (c : Commit) : Z := Z.of_nat (length (parents c)).

(** The scanner loop of [GetSubModules] over the lines of the blob. *)
Fixpoint scan_modules (lines : list string) (cache : objectCache)
    (ismodule : bool) (path : string) : outcome objectCache :=
  match lines with
  | [] => Returned cache
  | text :: rest =>
      if HasPrefix text "[submodule" then scan_modules rest cache true path
      else if ismodule then
        let fields := Split text "=" in
        f0 ← index fields 0;
        let k := TrimSpace f0 in
        if String.eqb k "path" then
          f1 ← index fields 1;
          scan_modules rest cache ismodule (TrimSpace f1)
        else if String.eqb k "url" then
          f1 ← index fields 1;
          scan_modules rest
            (<[path := {| sm_path := path; sm_url := TrimSpace f1 |}]> cache)
            false path
        else scan_modules rest cache ismodule path
      else scan_modules rest cache ismodule path
  end.

Definition set_cache (c : Commit) (m : objectCache) : Commit :=
  {| tree := tree c; ID := ID c; Author := Author c; Committer := Committer c;
     CommitMessage := CommitMessage c; parents := parents c;
     submoduleCache := Some m |}.

(** [GetSubModules] returns the cache and an error, and leaves the commit
    with its cache filled: the commit after the call is the third
    component. *)
Definition GetSubModules (c : Commit)
  : outcome (option objectCache * option error * Commit) :=
  match submoduleCache c with
  | Some m => Returned (Some m, None, c)
  | None =>
      match GetTreeEntryByPath (tree c) ".gitmodules" with
      | inr e => Returned (None, Some e, c)
      | inl entry =>
          match blob_err entry with
          | Some e => Returned (None, Some e, c)
          | None =>
              m ← scan_modules (ScanLines (blob_data entry)) ∅ false "";
              Returned (Some m, None, set_cache c m)
          end
      end
  end.

Definition GetSubModule (c : Commit) (entryname : string)
  : outcome (option SubModule * option error * Commit) :=
  '(modules, err, c') ← GetSubModules c;
  match err, modules with
  | Some e, _ => Returned (None, Some e, c')
  | None, Some modules => Returned (modules !! entryname, None, c')
  | None, None => Panicked NilDereference
  end.

End Commits.

(** ** File status of a commit *)

Module FileStatus.

Record CommitFileStatus : Type := {
  Added : list string;
  Removed : list string;
  Modified : list string
}.

Definition NewCommitFileStatus : CommitFileStatus :=
  {| Added := []; Removed := []; Modified := [] |}.

(** [s[0]] on a string. *)
Definition first_byte (s : string) : outcome ascii :=
  match s with
  | String c _ => Returned c
  | EmptyString => Panicked (IndexOutOfRange 0 0)
  end.

(** One iteration of the scanning goroutine's loop. *)
Definition classify_line (text : string) (fileStatus : CommitFileStatus)
  : outcome CommitFileStatus :=
  let fields := Fields text in
  if Z.of_nat (length fields) <? 2 then Returned fileStatus
  else
    f0 ← index fields 0;
    c ← first_byte f0;
    if Ascii.eqb c "A" then
      f1 ← index fields 1;
      Returned {| Added := (Added fileStatus ++ [f1])%list;
                  Removed := Removed fileStatus;
                  Modified := Modified fileStatus |}
    else if Ascii.eqb c "D" then
      f1 ← index fields 1;
      Returned {| Added := Added fileStatus;
                  Removed := (Removed fileStatus ++ [f1])%list;
                  Modified := Modified fileStatus |}
    else if Ascii.eqb c "M" then
      f1 ← index fields 1;
      Returned {| Added := Added fileStatus;
                  Removed := Removed fileStatus;
                  Modified := (Modified fileStatus ++ [f1])%list |}
    else Returned fileStatus.

Fixpoint classify (lines : list string) (fileStatus : CommitFileStatus)
  : outcome CommitFileStatus :=
  match lines with
  | [] => Returned fileStatus
  | text :: rest =>
      fileStatus ← classify_line text fileStatus;
      classify rest fileStatus
  end.

(** Modelled from the spec: [concatenateError], which attaches the
    captured diagnostic text, when there is any, to the failure. *)
Definition concatenateError (err : error) (stderr : string) : error :=
  match stderr with
  | EmptyString => err
  | _ => ErrDiag err stderr
  end.

Definition status_command (commitID : string) : Command :=
  NewCommand ["log"; "-1"; "--name-status"; "--pretty=format:''"; commitID].

(** The goroutine reads what the process writes to the pipe until the
    writer is closed; the caller waits for it before it returns the
    status, so the result is that of scanning the whole output.  On a
    process error the caller returns without waiting.  The pipe has no
    buffer: when the scanner gives up on an over-long line and leaves
    output unread, the process cannot finish writing and the invocation
    never comes back. *)
Definition GetCommitFileStatus (git : Runner) (repoPath commitID : string)
  : outcome (option CommitFileStatus * option error) :=
  let cmd := status_command commitID in
  let '(stdout, stderr, err) := RunInDirPipeline git cmd repoPath in
  if ScanStuck stdout then Blocked
  else
    match err with
    | Some e => Returned (None, Some (concatenateError e stderr))
    | None =>
        fileStatus ← classify (ScanLines stdout) NewCommitFileStatus;
        Returned (Some fileStatus, None)
    end.

End FileStatus.

(** ** Collaborator statistics *)

Module Stats.

Record CommitsPerUser : Type := {
  NumCommits : Z;
  Date : string;
  User : string
}.

Record CommitsInfo : Type := {
  Info : list CommitsPerUser;
  Total : Z
}.

(** [lines[:len(lines)-1]]. *)
Definition drop_last (lines : list string) : outcome (list string) :=
  slice lines 0 (Z.of_nat (length lines) - 1).

(** The [range] loop of [commitsCountPerCollab]. *)
Fixpoint count_rows (lines : list string) (user : string) (commits : CommitsInfo)
  : outcome CommitsInfo :=
  match lines with
  | [] => Returned commits
  | line :: rest =>
      let info := SplitN line ":" 2 in
      i0 ← index info 0;
      let numcommits := fst (ParseInt (TrimSpace i0)) in
      i1 ← index info 1;
      count_rows rest user
        {| Info := (Info commits ++ [{| NumCommits := numcommits;
                                        Date := i1;
                                        User := user |}])%list;
           Total := add64 (Total commits) numcommits |}
  end.

Definition collab_command (user : string) : Command :=
  NewCommand ["log"; "--author='" +:+ user +:+ "'"; "| grep Date ";
              "| awk '{print" +:+ DQ +:+ ":" +:+ DQ +:+ "$4" +:+ DQ +:+ "-"
                +:+ DQ +:+ "$3" +:+ DQ +:+ "-" +:+ DQ +:+ "$6}'";
              "| uniq -c"].

Definition commitsCountPerCollab (git : Runner) (repoPath user : string)
  : outcome (option CommitsInfo * option error) :=
  let cmd := collab_command user in
  let '(stdout, err) := RunPipesInDir git cmd repoPath in
  match err with
  | Some e => Returned (None, Some e)
  | None =>
      let user := if String.eqb user "" then "all" else user in
      let commits := {| Info := []; Total := 0 |} in
      lines ← drop_last (Split stdout NL);
      if 0 <? Z.of_nat (length lines) then
        commits ← count_rows lines user commits;
        Returned (Some commits, None)
      else
        Returned (Some {| Info := (Info commits ++ [{| NumCommits := 0;
                                                       Date := "00-000-0000";
                                                       User := user |}])%list;
                          Total := 0 |}, None)
  end.

Record StatsUser : Type := {
  Insertions : Z;
  Deletions : Z;
  Author : string;
  Files : Z
}.

(** What one line adds to the insertions and to the deletions, and the
    value of [err] after the line, given the one before. *)
Definition numstat_line (line : string) (err : option error) : Z * Z * option error :=
  match FindAllDigits line with
  | [n0; n1] =>
      let '(ins, err) := ParseInt (TrimSpace n0) in
      let ins := match err with Some _ => 0 | None => ins end in
      let '(del, err) := ParseInt (TrimSpace n1) in
      let del := match err with Some _ => 0 | None => del end in
      (ins, del, err)
  | _ => (0, 0, err)
  end.

(** The [range] loop of [numStatCommitsPerUser]. *)
Fixpoint numstat_loop (lines : list string) (insertions deletions : Z)
    (err : option error) : Z * Z * option error :=
  match lines with
  | [] => (insertions, deletions, err)
  | line :: rest =>
      let '(ins, del, err) := numstat_line line err in
      numstat_loop rest (add64 insertions ins) (add64 deletions del) err
  end.

Definition numstat_command (user : string) : Command :=
  let cmd := NewCommand ["log"; "--numstat"] in
  let cmd := AddArguments cmd ["--pretty=tformat:"] in
  let cmd := AddArguments cmd ["--author=" +:+ user] in
  AddArguments cmd ["--until=now"].

(** The message printed on a process error is not part of the result. *)
Definition numStatCommitsPerUser (git : Runner) (user repoPath : string)
  : outcome (option StatsUser * option error) :=
  let cmd := numstat_command user in
  let '(stdout, err) := RunInDir git cmd repoPath in
  match err with
  | Some e => Returned (None, Some e)
  | None =>
      lines ← drop_last (Split stdout NL);
      let '(insertions, deletions, err) := numstat_loop lines 0 0 None in
      Returned (Some {| Insertions := insertions;
                        Deletions := deletions;
                        Author := user;
                        Files := Z.of_nat (length lines) |}, err)
  end.

End Stats.

(** ** Notions the statements are phrased with *)

Module Notions.
Import CodeSearch.

(** A runner whose every invocation produces the same output and error. *)
Definition canned (out : string) (err : option error) : Runner :=
  {| RunPipesInDir := fun _ _ => (out, err);
     RunInDir := fun _ _ => (out, err);
     RunInDirPipeline := fun _ _ => (out, EmptyString, err) |}.

(** A runner for the two search phases: the count phase is the pipeline
    with three arguments, the fetch phase the one with four. *)
Definition two_phase (count fetch : string * option error) : Runner :=
  {| RunPipesInDir := fun cmd _ =>
       if Nat.eqb (length cmd) 3 then count else fetch;
     RunInDir := fun _ _ => (EmptyString, None);
     RunInDirPipeline := fun _ _ => (EmptyString, EmptyString, None) |}.

(** The blank-line-separated blocks of a fetch-phase output. *)
Definition blocks (stdout : string) : list string := Split stdout (NL +:+ NL).

Definition totalBlocks (stdout : string) : Z := Z.of_nat (length (blocks stdout)).

(** A block whose header line ends in a newline and holds a colon. *)
Definition block_ok (b : string) : bool :=
  match ReadString b with
  | (h, None) => contains_byte ":" h
  | (_, Some _) => false
  end.

(** A block whose header line, if it ends in a newline, holds a colon. *)
Definition block_safe (b : string) : bool :=
  match ReadString b with
  | (h, None) => contains_byte ":" h
  | (_, Some _) => true
  end.

(** The match a well-formed block is parsed into. *)
Definition to_match (b : string) : Match :=
  let info := Split (fst (ReadString b)) ":" in
  {| CommitID := nth 0 info EmptyString;
     Path := Trim (nth 1 info EmptyString) " ";
     Content := b |}.

(** The blocks with indices in [[lo, hi)]. *)
Definition window (l : list string) (lo hi : Z) : list string :=
  take (Z.to_nat (hi - lo)) (drop (Z.to_nat lo) l).



(** Sample inputs. *)
Definition search_opts (keyword : string) (page pageSize : Z) : RepoSearchOptions :=
  {| Keyword := keyword; OwnerID := 0; OrderBy := "--date-order";
     Page := page; PageSize := pageSize |}.
Definition three_blocks : string :=
  "c1:a.go" +:+ NL +:+ "1:x" +:+ NL +:+ NL +:+
  "c2:b.go" +:+ NL +:+ "2:y" +:+ NL +:+ NL +:+
  "c3:c.go" +:+ NL +:+ "3:z" +:+ NL.
Definition one_block : string := "c1:a.go" +:+ NL +:+ "1:FOO" +:+ NL.
Definition headless_block : string := "binary file matches" +:+ NL.

End Notions.

Module Samples.
Import Commits.

Definition tab : string := String "009"%char EmptyString.

(** A root commit object and a child of it. *)
Definition root_object : CommitObject :=
  {| obj_author := None; obj_committer := None; obj_message := "initial";
     obj_parents := []; obj_entries := ∅ |}.

Definition full_repo : Repository :=
  {| Path := "/srv/repo.git"; objects := {[ "aaaa" := root_object ]} |}.

(** A shallow repository: the parent of the tip was not fetched. *)
Definition shallow_repo : Repository :=
  {| Path := "/srv/shallow.git"; objects := ∅ |}.

Definition tip_of (r : Repository) (blobs : gmap string TreeEntry) : Commit :=
  {| tree := {| repo := r; entries := blobs |};
     ID := "bbbb"; Author := None; Committer := None;
     CommitMessage := "second"; parents := ["aaaa"];
     submoduleCache := None |}.

Definition blob (data : string) : gmap string TreeEntry :=
  {[ ".gitmodules" := {| blob_data := data; blob_err := None |} ]}.

Definition one_submodule : string :=
  "[submodule " +:+ DQ +:+ "x" +:+ DQ +:+ "]" +:+ NL +:+
  tab +:+ "path = libs/x" +:+ NL +:+
  tab +:+ "url = https://example.com/x.git" +:+ NL.

Definition no_submodule : string := "# no modules here" +:+ NL.

End Samples.

(** No line opens a submodule section. *)
Definition no_section (lines : list string) : bool :=
  forallb (fun text => negb (HasPrefix text "[submodule")) lines.

Module StatusNotions.
Import FileStatus Samples.

(** What the classifier is described to do with one line: fewer than two
    fields, nothing; otherwise the first byte of the first field decides
    which list the second field goes to, if any. *)
Definition status_step (fileStatus : CommitFileStatus) (text : string)
  : CommitFileStatus :=
  match Fields text with
  | String c _ :: path :: _ =>
      if Ascii.eqb c "A" then
        {| Added := (Added fileStatus ++ [path])%list;
           Removed := Removed fileStatus;
           Modified := Modified fileStatus |}
      else if Ascii.eqb c "D" then
        {| Added := Added fileStatus;
           Removed := (Removed fileStatus ++ [path])%list;
           Modified := Modified fileStatus |}
      else if Ascii.eqb c "M" then
        {| Added := Added fileStatus;
           Removed := Removed fileStatus;
           Modified := (Modified fileStatus ++ [path])%list |}
      else fileStatus
  | _ => fileStatus
  end.

Definition name_status_report : string :=
  "A" +:+ tab +:+ "foo.txt" +:+ NL +:+
  "D" +:+ tab +:+ "bar.txt" +:+ NL +:+
  "M" +:+ tab +:+ "baz.txt" +:+ NL +:+
  "X" +:+ NL.

End StatusNotions.

Module StatsNotions.
Import Stats Samples.

(** The lines the two aggregations go through: the pieces of the output
    between newlines, without the piece after the last newline. *)
Definition report_lines (stdout : string) : list string :=
  take (length (Split stdout NL) - 1) (Split stdout NL).

(** The label a histogram row carries for a user argument. *)
Definition label (user : string) : string :=
  if String.eqb user EmptyString then "all" else user.

(** The count a count field stands for. *)
Definition count_of (field : string) : Z := fst (ParseInt (TrimSpace field)).

(** The row a line [count:date] is turned into. *)
Definition row_of (user line : string) : CommitsPerUser :=
  let info := SplitN line ":" 2 in
  {| NumCommits := count_of (nth 0 info EmptyString);
     Date := nth 1 info EmptyString;
     User := user |}.

Definition placeholder (user : string) : CommitsPerUser :=
  {| NumCommits := 0; Date := "00-000-0000"; User := user |}.

(** The sum of the counts of the rows, in unbounded integers. *)
Definition sum_commits (rows : list CommitsPerUser) : Z :=
  fold_right Z.add 0 (map NumCommits rows).

Definition two_days : string :=
  "3:01-Jan-2020" +:+ NL +:+ "2:02-Jan-2020" +:+ NL.

Definition huge_count : string := "9223372036854775808:01-Jan-2020" +:+ NL.

End StatsNotions.

Module NumstatNotions.
Import Stats Samples StatsNotions.

(** The number a run of decimal digits denotes, read after [n]. *)
Fixpoint decimal_from (run : string) (n : Z) : Z :=
  match run with
  | EmptyString => n
  | String c run' => decimal_from run' (n * 10 + (Z.of_N (byte c) - 48))
  end.

Definition decimal (run : string) : Z := decimal_from run 0.

(** What a numeric run adds: its number, or nothing when the number does
    not fit 64 bits. *)
Definition run_value (run : string) : Z :=
  if decimal run <=? max_int64 then decimal run else 0.

(** What a line adds to the insertions and to the deletions. *)
Definition contribution (line : string) : Z * Z :=
  match FindAllDigits line with
  | [ins; del] => (run_value ins, run_value del)
  | _ => (0, 0)
  end.

Definition sum_of (l : list Z) : Z := fold_right Z.add 0 l.

(** A string of decimal digits. *)
Definition digits (s : string) : Prop :=
  Forall (fun c => is_digit c = true) (list_ascii_of_string s).

(** The two sample lines, and the same with file names that hold no digit. *)
Definition numstat_sample : string :=
  "10" +:+ tab +:+ "2" +:+ tab +:+ "file1" +:+ NL +:+
  "3" +:+ tab +:+ "1" +:+ tab +:+ "file2" +:+ NL.

Definition numstat_plain : string :=
  "10" +:+ tab +:+ "2" +:+ tab +:+ "README" +:+ NL +:+
  "3" +:+ tab +:+ "1" +:+ tab +:+ "Makefile" +:+ NL.

End NumstatNotions.

(** ** Notions for the further properties *)

Module MoreNotions.

(** The pieces put together again with the separator between them. *)
Fixpoint join (sep : string) (l : list string) : string :=
  match l with
  | [] => EmptyString
  | [x] => x
  | x :: rest => x +:+ sep +:+ join sep rest
  end.

(** The string ends with the byte [d]. *)
Definition ends_with (d : ascii) (s : string) : Prop :=
  exists u, s = u +:+ String d EmptyString.

(** A fetch output of two blocks whose second block has no newline. *)
Definition open_ended : string :=
  "c1:a.go" +:+ NL +:+ "1:x" +:+ NL +:+ NL +:+ "c2:b.go".

End MoreNotions.





(** ** Summary and commit counts *)

Module CommitInfo.
Import Commits.

(** [strings.Split(c.CommitMessage, "\n")[0]]. *)
Definition Summary (c : Commit) : outcome string :=
  index (Split (CommitMessage c) NL) 0.

(** The command line of [commitsCount]; [isFallback] is the outcome of
    [version.Compare(gitVersion, "1.8.0", "<")], a comparison of a global
    that is set outside the sources. *)
Definition count_commits_command (isFallback : bool) (revision relpath : string)
  : Command :=
  let cmd := if isFallback then NewCommand ["log"; "--pretty=format:''"]
             else NewCommand ["rev-list"; "--count"] in
  let cmd := AddArguments cmd [revision] in
  if 0 <? len relpath then AddArguments cmd ["--"; relpath] else cmd.

Definition commitsCount (isFallback : bool) (git : Runner)
    (repoPath revision relpath : string) : Z * option error :=
  let cmd := count_commits_command isFallback revision relpath in
  let '(stdout, err) := RunInDir git cmd repoPath in
  match err with
  | Some e => (0, Some e)
  | None =>
      if isFallback then (add64 (Z.of_nat (count_byte nl stdout)) 1, None)
      else ParseInt (TrimSpace stdout)
  end.

Definition CommitsCount (isFallback : bool) (git : Runner)
    (repoPath revision : string) : Z * option error :=
  commitsCount isFallback git repoPath revision EmptyString.

(** A commit with a message and nothing else. *)
Definition commit_with_message (message : string) : Commit :=
  {| tree := {| repo := {| Path := "/srv/repo.git"; objects := ∅ |}; entries := ∅ |};
     ID := "bbbb"; Author := None; Committer := None;
     CommitMessage := message; parents := []; submoduleCache := None |}.

End CommitInfo.

Module SubmoduleNotions.
Import Commits Samples.

(** Every submodule of the mapping is stored under its own path. *)
Definition keyed_by_path (m : gmap string SubModule) : Prop :=
  forall k sm, m !! k = Some sm -> sm_path sm = k.

(** The line is no section marker and reads [key = value] once the space
    around the two is trimmed. *)
Definition assigns (text key value : string) : Prop :=
  HasPrefix text "[submodule" = false /\
  exists f0 f1 rest,
    Split text "=" = f0 :: f1 :: rest /\
    TrimSpace f0 = key /\ TrimSpace f1 = value.

End SubmoduleNotions.

Module MoreStatusNotions.
Import FileStatus Samples StatusNotions.

(** The paths of a status, list after list. *)
Definition all_paths (fileStatus : CommitFileStatus) : list string :=
  (Added fileStatus ++ Removed fileStatus ++ Modified fileStatus)%list.

(** Two statuses put one after the other, list by list. *)
Definition status_append (f1 f2 : CommitFileStatus) : CommitFileStatus :=
  {| Added := (Added f1 ++ Added f2)%list;
     Removed := (Removed f1 ++ Removed f2)%list;
     Modified := (Modified f1 ++ Modified f2)%list |}.

Definition first_report : string :=
  "A" +:+ tab +:+ "foo.txt" +:+ NL +:+ "M" +:+ tab +:+ "baz.txt" +:+ NL.

Definition second_report : string :=
  "A" +:+ tab +:+ "new.txt" +:+ NL +:+ "D" +:+ tab +:+ "bar.txt".

End MoreStatusNotions.

Module MoreStatsNotions.
Import Stats Samples StatsNotions NumstatNotions.

(** The error [numStatCommitsPerUser] is left with after the lines: that
    of the last deletions run it parsed. *)
Definition numstat_error (lines : list string) : option error :=
  fold_left (fun err line =>
               match FindAllDigits line with
               | [ins; del] =>
                   if decimal del <=? max_int64 then None
                   else Some (ErrRange "ParseInt" del)
               | _ => err
               end) lines None.

(** Every deletions run of the lines fits 64 bits. *)
Definition deletions_fit (lines : list string) : Prop :=
  Forall (fun line => forall ins del,
            FindAllDigits line = [ins; del] -> decimal del <= max_int64) lines.

(** A histogram output whose second line has no colon. *)
Definition colonless : string :=
  "3:01-Jan-2020" +:+ NL +:+ "fatal error" +:+ NL.

(** Numstat lines with a number that does not fit 64 bits, first as
    insertions, then as deletions. *)
Definition huge_insertions : string :=
  "99999999999999999999" +:+ tab +:+ "2" +:+ tab +:+ "README" +:+ NL.

Definition huge_deletions : string :=
  "2" +:+ tab +:+ "99999999999999999999" +:+ tab +:+ "README" +:+ NL.

End MoreStatsNotions.

Module JoinedNotions.
Import Stats Samples StatsNotions NumstatNotions.

(** The statistics of two outputs added up. *)
Definition stats_add (user : string) (s1 s2 : StatsUser) : StatsUser :=
  {| Insertions := add64 (Insertions s1) (Insertions s2);
     Deletions := add64 (Deletions s1) (Deletions s2);
     Author := user;
     Files := Files s1 + Files s2 |}.

(** Two histograms put one after the other. *)
Definition histogram_append (h1 h2 : CommitsInfo) : CommitsInfo :=
  {| Info := (Info h1 ++ Info h2)%list;
     Total := add64 (Total h1) (Total h2) |}.

Definition numstat_first : string :=
  "10" +:+ tab +:+ "2" +:+ tab +:+ "README" +:+ NL.

Definition numstat_second : string :=
  "3" +:+ tab +:+ "1" +:+ tab +:+ "Makefile" +:+ NL.

Definition day_one : string := "3:01-Jan-2020" +:+ NL.
Definition day_two : string := "2:02-Jan-2020" +:+ NL.

End JoinedNotions.

Module CountNotions.
Import Stats Samples StatsNotions NumstatNotions.

(** The digits a string begins with. *)
Fixpoint leading_digits (s : string) : string :=
  match s with
  | String c s' => if is_digit c then String c (leading_digits s') else EmptyString
  | EmptyString => EmptyString
  end.

(** The bound of the 64-bit range on the side of the sign. *)
Definition nearest_bound (neg : bool) : Z := if neg then min_int64 else max_int64.

(** What the text [d] after an optional sign counts as.  Digits that
    exceed the unsigned 64-bit range count as the nearest bound, whatever
    follows them; otherwise a text with no digit or with a byte that is no
    digit counts as 0; otherwise the text is a decimal numeral and counts
    as its number, or as the nearest bound when the number is outside the
    signed 64-bit range. *)
Definition signed_value (neg : bool) (d : string) : Z :=
  if max_uint64 <? decimal (leading_digits d) then nearest_bound neg
  else if String.eqb d EmptyString || negb (String.eqb (leading_digits d) d) then 0
  else if neg then (if 2 ^ 63 <? decimal d then min_int64 else - decimal d)
  else (if 2 ^ 63 <=? decimal d then max_int64 else decimal d).

(** What a trimmed count field counts as: an optional sign, then
    [signed_value] of the rest. *)
Definition count_value (s : string) : Z :=
  match s with
  | EmptyString => 0
  | String c s' =>
      let neg := Ascii.eqb c "-" in
      signed_value neg (if Ascii.eqb c "+" || neg then s' else s)
  end.

(** A count of twenty nines followed by a letter. *)
Definition nines_and_letter : string := "99999999999999999999x".

End CountNotions.

Module SectionNotions.
Import Commits Samples SubmoduleNotions.

(** The trimmed text before the first equals sign of a line, and the
    trimmed text between its first and its second. *)
Definition line_key (text : string) : string :=
  TrimSpace (nth 0 (Split text "=") EmptyString).

Definition line_value (text : string) : string :=
  TrimSpace (nth 1 (Split text "=") EmptyString).

(** What a line that is read without a panic does to the variables
    ismodule and path of the scanner loop: a section marker opens a
    section, a path line inside a section sets the path, a url line inside
    a section closes the section, and nothing resets the path. *)
Definition line_step (st : bool * string) (text : string) : bool * string :=
  let '(ismodule, path) := st in
  if HasPrefix text "[submodule" then (true, path)
  else if ismodule then
    if String.eqb (line_key text) "path" then (ismodule, line_value text)
    else if String.eqb (line_key text) "url" then (false, path)
    else (ismodule, path)
  else (ismodule, path).

(** After the lines, is the scanner inside a section, and which path is
    pending. *)
Definition in_section (pre : list string) : bool :=
  fst (fold_left line_step pre (false, EmptyString)).

Definition pending_path (pre : list string) : string :=
  snd (fold_left line_step pre (false, EmptyString)).

(** The scanner loop of [GetSubModules] stopped after the given lines: the
    mapping, ismodule and path it has reached. *)
Fixpoint scan_state (lines : list string) (cache : objectCache)
    (ismodule : bool) (path : string) : outcome (objectCache * bool * string) :=
  match lines with
  | [] => Returned (cache, ismodule, path)
  | text :: rest =>
      if HasPrefix text "[submodule" then scan_state rest cache true path
      else if ismodule then
        let fields := Split text "=" in
        f0 ← index fields 0;
        let k := TrimSpace f0 in
        if String.eqb k "path" then
          f1 ← index fields 1;
          scan_state rest cache ismodule (TrimSpace f1)
        else if String.eqb k "url" then
          f1 ← index fields 1;
          scan_state rest
            (<[path := {| sm_path := path; sm_url := TrimSpace f1 |}]> cache)
            false path
        else scan_state rest cache ismodule path
      else scan_state rest cache ismodule path
  end.

(** A line that is no section marker, holds no equals sign and whose
    trimmed text is path or url. *)
Definition key_without_value (text : string) : Prop :=
  HasPrefix text "[submodule" = false /\
  contains_byte "=" text = false /\
  (TrimSpace text = "path" \/ TrimSpace text = "url").

(** A section whose path line is followed by a url line without a value. *)
Definition bare_url : string :=
  "[submodule x]" +:+ NL +:+ tab +:+ "path = libs/x" +:+ NL +:+
  tab +:+ "url" +:+ NL.

(** Two sections, the second with its url before its path. *)
Definition late_path : string :=
  "[submodule a]" +:+ NL +:+ "path = libs/a" +:+ NL +:+
  "url = https://example.com/a.git" +:+ NL +:+
  "[submodule b]" +:+ NL +:+ "url = https://example.com/b.git" +:+ NL +:+
  "path = libs/b" +:+ NL.

End SectionNotions.

(** ** Proof steps *)

(** Boolean tests on bytes turned into arithmetic facts. *)
Ltac byte_facts :=
  repeat match goal with
    | H : (_ && _) = true |- _ => apply andb_true_iff in H as [? ?]
    | H : (_ || _) = true |- _ => apply orb_true_iff in H as [?|?]
    | H : (_ =? _)%N = true |- _ => apply N.eqb_eq in H
    | H : (_ <=? _)%N = true |- _ => apply N.leb_le in H
    end.

Ltac split_ifs :=
  repeat match goal with
    | |- context [if ?b then _ else _] => destruct b eqn:?
    end.

(** ** Facts about the text functions *)

Section TextFacts.

Lemma prefix_single (c d : ascii) (s : string) :
  String.prefix (String c EmptyString) (String d s) = Ascii.eqb d c.
Proof.
  simpl. destruct (ascii_dec c d) as [->|Hne].
  - rewrite Ascii.eqb_refl. by destruct s.
  - symmetry. apply Ascii.eqb_neq. congruence.
Qed.

Lemma split_aux_nonempty (sep : string) (s : string) :
  forall skip, split_aux sep skip s <> [].
Proof.
  induction s as [|c s IH]; intros skip; [done|].
  cbn [split_aux]. destruct skip as [|k]; [|apply IH].
  destruct (String.prefix sep (String c s)); [done|].
  destruct (split_aux sep 0 s); done.
Qed.

Lemma Split_length_pos (s sep : string) : (1 <= length (Split s sep))%nat.
Proof.
  unfold Split. pose proof (split_aux_nonempty sep s 0%nat) as H.
  destruct (split_aux sep 0 s); simpl; [done|lia].
Qed.

(** Splitting on one byte gives one piece more than the byte occurs. *)
Lemma Split_single_length (c : ascii) (s : string) :
  length (Split s (String c EmptyString)) = S (count_byte c s).
Proof.
  unfold Split. induction s as [|d s IH]; [done|].
  cbn [split_aux]. rewrite prefix_single. cbn [count_byte String.length].
  destruct (Ascii.eqb d c); cbn [length Nat.sub].
  - rewrite IH. lia.
  - pose proof (split_aux_nonempty (String c EmptyString) s 0%nat) as Hne.
    destruct (split_aux (String c EmptyString) 0 s) as [|cur rest]; [done|].
    simpl in *. lia.
Qed.

Lemma count_byte_contains (c : ascii) (s : string) :
  contains_byte c s = negb (Nat.eqb (count_byte c s) 0).
Proof.
  induction s as [|d s IH]; [done|]. simpl.
  destruct (Ascii.eqb d c); simpl; [done|exact IH].
Qed.

Lemma Split_single_absent (c : ascii) (s : string) :
  contains_byte c s = false -> length (Split s (String c EmptyString)) = 1%nat.
Proof.
  intros H. rewrite Split_single_length.
  rewrite count_byte_contains in H.
  destruct (count_byte c s); [done|discriminate].
Qed.

Lemma Split_single_present (c : ascii) (s : string) :
  contains_byte c s = true -> (2 <= length (Split s (String c EmptyString)))%nat.
Proof.
  intros H. rewrite Split_single_length.
  rewrite count_byte_contains in H.
  destruct (count_byte c s); [discriminate|lia].
Qed.

Lemma len_zero (s : string) : (CodeSearch.len s <=? 0) = true <-> s = EmptyString.
Proof.
  unfold CodeSearch.len. destruct s; simpl; split; intros H; done.
Qed.

Lemma len_nonzero (s : string) : s <> EmptyString -> (CodeSearch.len s <=? 0) = false.
Proof.
  intros H. destruct (CodeSearch.len s <=? 0) eqn:E; [|done].
  apply len_zero in E. done.
Qed.

End TextFacts.

Import CodeSearch Notions.

(** ** Facts about slices and indices *)

Section GoFacts.

Lemma wrap64_id (z : Z) : min_int64 <= z <= max_int64 -> wrap64 z = z.
Proof.
  unfold min_int64, max_int64, wrap64. intros H.
  rewrite Z.mod_small; lia.
Qed.

Lemma index_at {A} (l : list A) (i : nat) (a : A) :
  l !! i = Some a -> index l (Z.of_nat i) = Returned a.
Proof.
  intros H. unfold index. pose proof (lookup_lt_Some _ _ _ H) as Hlt.
  rewrite Nat2Z.id, H.
  replace (0 <=? Z.of_nat i) with true by (symmetry; apply Z.leb_le; lia).
  replace (Z.of_nat i <? Z.of_nat (length l)) with true
    by (symmetry; apply Z.ltb_lt; lia).
  done.
Qed.

Lemma index_beyond {A} (l : list A) (i : Z) :
  Z.of_nat (length l) <= i ->
  index l i = Panicked (IndexOutOfRange i (Z.of_nat (length l))).
Proof.
  intros H. unfold index.
  replace (i <? Z.of_nat (length l)) with false
    by (symmetry; apply Z.ltb_ge; lia).
  by rewrite andb_false_r.
Qed.

Lemma index_negative {A} (l : list A) (i : Z) :
  i < 0 -> index l i = Panicked (IndexOutOfRange i (Z.of_nat (length l))).
Proof.
  intros H. unfold index.
  replace (0 <=? i) with false by (symmetry; apply Z.leb_gt; lia).
  done.
Qed.

Lemma slice_inside {A} (l : list A) (lo hi : Z) :
  0 <= lo <= hi -> hi <= Z.of_nat (length l) ->
  slice l lo hi = Returned (take (Z.to_nat (hi - lo)) (drop (Z.to_nat lo) l)).
Proof.
  intros [H0 H1] H2. unfold slice.
  replace (0 <=? lo) with true by (symmetry; apply Z.leb_le; lia).
  replace (lo <=? hi) with true by (symmetry; apply Z.leb_le; lia).
  replace (hi <=? Z.of_nat (length l)) with true by (symmetry; apply Z.leb_le; lia).
  done.
Qed.

Lemma slice_outside {A} (l : list A) (lo hi : Z) :
  lo < 0 \/ hi < lo \/ Z.of_nat (length l) < hi ->
  slice l lo hi = Panicked (SliceBoundsOutOfRange lo hi).
Proof.
  intros H. unfold slice.
  destruct (0 <=? lo) eqn:E0; [|done].
  destruct (lo <=? hi) eqn:E1; [|done].
  destruct (hi <=? Z.of_nat (length l)) eqn:E2; [|done].
  apply Z.leb_le in E0, E1, E2. lia.
Qed.

Lemma slice_returned {A} (l w : list A) (lo hi : Z) :
  slice l lo hi = Returned w ->
  0 <= lo <= hi /\ hi <= Z.of_nat (length l) /\
  w = take (Z.to_nat (hi - lo)) (drop (Z.to_nat lo) l) /\
  Z.of_nat (length w) = hi - lo.
Proof.
  unfold slice.
  destruct (0 <=? lo) eqn:E0; [|done].
  destruct (lo <=? hi) eqn:E1; [|done].
  destruct (hi <=? Z.of_nat (length l)) eqn:E2; [|done].
  apply Z.leb_le in E0, E1, E2. cbn [andb]. intros [= <-].
  repeat split; try lia.
  rewrite length_take, length_drop. lia.
Qed.

End GoFacts.

Section SearchFacts.

Lemma header_fields_ok (h : string) :
  contains_byte ":" h = true ->
  index (Split h ":") 0 = Returned (nth 0 (Split h ":") EmptyString) /\
  index (Split h ":") 1 = Returned (nth 1 (Split h ":") EmptyString).
Proof.
  intros H. apply Split_single_present in H.
  destruct (Split h ":") as [|a [|b l]]; simpl in H; try lia.
  split; [apply (index_at _ 0%nat) | apply (index_at _ 1%nat)]; done.
Qed.

Lemma header_fields_bad (h : string) :
  contains_byte ":" h = false ->
  (exists a, index (Split h ":") 0 = Returned a) /\
  index (Split h ":") 1 = Panicked (IndexOutOfRange 1 1).
Proof.
  intros H. apply Split_single_absent in H.
  destruct (Split h ":") as [|a [|b l]]; simpl in H; try lia.
  split; [exists a; apply (index_at _ 0%nat); done|].
  apply (index_beyond [a] 1). simpl. lia.
Qed.

Lemma collect_ok (w : list string) :
  forall acc, forallb block_ok w = true ->
  collect w acc = Returned (inl (acc ++ map to_match w)%list).
Proof.
  induction w as [|b w IH]; intros acc H; cbn [collect map].
  - by rewrite app_nil_r.
  - cbn [forallb] in H. apply andb_true_iff in H as [Hb Hw].
    unfold block_ok in Hb. unfold to_match.
    destruct (ReadString b) as [h [e|]]; [done|]. cbn [fst].
    destruct (header_fields_ok h Hb) as [-> ->]. cbn.
    rewrite (IH _ Hw). by rewrite <- app_assoc.
Qed.

Lemma collect_safe (w : list string) :
  forall acc, forallb block_safe w = true ->
  exists r, collect w acc = Returned r.
Proof.
  induction w as [|b w IH]; intros acc H; cbn [collect].
  - by eexists.
  - cbn [forallb] in H. apply andb_true_iff in H as [Hb Hw].
    unfold block_safe in Hb.
    destruct (ReadString b) as [h [e|]]; [by eexists|].
    destruct (header_fields_ok h Hb) as [-> ->]. cbn.
    apply IH, Hw.
Qed.

Lemma collect_bad (pre post : list string) (b h : string) :
  forall acc, forallb block_ok pre = true ->
  ReadString b = (h, None) -> contains_byte ":" h = false ->
  collect (pre ++ b :: post) acc = Panicked (IndexOutOfRange 1 1).
Proof.
  induction pre as [|p pre IH]; intros acc Hpre Hb Hh.
  - cbn [app collect]. rewrite Hb.
    destruct (header_fields_bad h Hh) as [[a ->] ->]. done.
  - cbn [forallb] in Hpre. apply andb_true_iff in Hpre as [Hp Hpre].
    cbn [app collect]. unfold block_ok in Hp.
    destruct (ReadString p) as [hp [e|]]; [done|].
    destruct (header_fields_ok hp Hp) as [-> ->]. cbn.
    by apply IH.
Qed.

Lemma getRangeOfMatches_nonempty git repoPath opts stdout err :
  RunPipesInDir git (range_command opts) repoPath = (stdout, err) ->
  stdout <> EmptyString ->
  getRangeOfMatches git repoPath opts =
    (results ← slice (blocks stdout) (window_start opts)
                 (window_limit opts (totalBlocks stdout));
     r ← collect results [];
     Returned (finish err r)).
Proof.
  intros Hrun Hne. unfold getRangeOfMatches. rewrite Hrun.
  by rewrite (len_nonzero _ Hne).
Qed.

Lemma getRangeOfMatches_empty git repoPath opts err :
  RunPipesInDir git (range_command opts) repoPath = (EmptyString, err) ->
  getRangeOfMatches git repoPath opts = Returned ([], None).
Proof. intros Hrun. unfold getRangeOfMatches. by rewrite Hrun. Qed.

(** Without overflow the window starts at [(page-1)*pageSize] and ends at
    [min(page*pageSize, n)]. *)
Lemma window_bounds opts n :
  1 <= Page opts -> 0 < PageSize opts ->
  Page opts * PageSize opts <= max_int64 ->
  window_start opts = (Page opts - 1) * PageSize opts /\
  window_limit opts n = Z.min (Page opts * PageSize opts) n.
Proof.
  intros HP HS Hmax. unfold window_start, window_limit, mul64, sub64.
  assert (Hs : PageSize opts <= max_int64) by nia.
  assert (Hp : Page opts <= max_int64) by nia.
  unfold max_int64 in *.
  rewrite (wrap64_id (Page opts - 1)) by (unfold min_int64, max_int64; lia).
  rewrite !wrap64_id by (unfold min_int64, max_int64; nia).
  split; [done|].
  destruct (Page opts * PageSize opts <? n) eqn:E.
  - apply Z.ltb_lt in E. lia.
  - apply Z.ltb_ge in E. lia.
Qed.

(** X4: a page that starts beyond the last block: the slice expression
    panics, its lower bound being above its upper bound. *)
Lemma getRangeOfMatches_beyond git repoPath opts stdout err :
  RunPipesInDir git (range_command opts) repoPath = (stdout, err) ->
  stdout <> EmptyString ->
  1 <= Page opts -> 0 < PageSize opts ->
  Page opts * PageSize opts <= max_int64 ->
  totalBlocks stdout < (Page opts - 1) * PageSize opts ->
  getRangeOfMatches git repoPath opts
    = Panicked (SliceBoundsOutOfRange ((Page opts - 1) * PageSize opts)
                                      (totalBlocks stdout)).
Proof.
  intros Hrun Hne HP HS Hmax Hlo.
  destruct (window_bounds opts (totalBlocks stdout) HP HS Hmax) as [Hstart Hlimit].
  rewrite (getRangeOfMatches_nonempty _ _ _ _ _ Hrun Hne), Hstart, Hlimit.
  replace (Z.min (Page opts * PageSize opts) (totalBlocks stdout))
    with (totalBlocks stdout) by nia.
  rewrite slice_outside by lia. done.
Qed.

End SearchFacts.

(** ** Code search: pagination, counts and failures *)

Section SearchTheorems.

Lemma collect_length (w : list string) :
  forall acc ms, collect w acc = Returned (inl ms) ->
  length ms = (length acc + length w)%nat.
Proof.
  induction w as [|b w IH]; intros acc ms; cbn [collect].
  - intros [= <-]. simpl. lia.
  - destruct (ReadString b) as [h [e|]]; [done|].
    destruct (index (Split h ":") 0) as [i0|p|]; [|done|done]. cbn.
    destruct (index (Split h ":") 1) as [i1|p|]; [|done|done]. cbn.
    intros H. apply IH in H. rewrite H, length_app. simpl. lia.
Qed.

Lemma getNumberOfCodeMatches_nonempty git repoPath keyword stdout err :
  RunPipesInDir git (count_command keyword) repoPath = (stdout, err) ->
  stdout <> EmptyString ->
  getNumberOfCodeMatches git repoPath keyword =
    (Z.of_nat (count_byte nl stdout), err).
Proof.
  intros Hrun Hne. unfold getNumberOfCodeMatches. rewrite Hrun.
  rewrite (len_nonzero _ Hne). unfold NL. rewrite Split_single_length.
  f_equal. lia.
Qed.

Lemma getNumberOfCodeMatches_empty git repoPath keyword err :
  RunPipesInDir git (count_command keyword) repoPath = (EmptyString, err) ->
  getNumberOfCodeMatches git repoPath keyword = (0, None).
Proof. intros Hrun. unfold getNumberOfCodeMatches. by rewrite Hrun. Qed.


(** X22: for page >= 1, pageSize > 0 and a page that starts within the
    block list, pagination selects the window [(page-1)*pageSize,
    min(page*pageSize, totalBlocks)) before any block is parsed; the window
    holds min(pageSize, totalBlocks - (page-1)*pageSize) blocks, no more
    matches than that are returned, exactly that many when every selected
    block parses, and none, with the error of the invocation, when the
    page starts at the end of the list. *)
Theorem range_window_paginates git repoPath opts stdout err :
  RunPipesInDir git (range_command opts) repoPath = (stdout, err) ->
  stdout <> EmptyString ->
  1 <= Page opts -> 0 < PageSize opts ->
  Page opts * PageSize opts <= max_int64 ->
  (Page opts - 1) * PageSize opts <= totalBlocks stdout ->
  let lo := (Page opts - 1) * PageSize opts in
  let hi := Z.min (Page opts * PageSize opts) (totalBlocks stdout) in
  let selected := window (blocks stdout) lo hi in
  getRangeOfMatches git repoPath opts
    = (r ← collect selected []; Returned (finish err r)) /\
  Z.of_nat (length selected) = Z.min (PageSize opts) (totalBlocks stdout - lo) /\
  (forall ms e, getRangeOfMatches git repoPath opts = Returned (ms, e) ->
     Z.of_nat (length ms) <= Z.min (PageSize opts) (totalBlocks stdout - lo)) /\
  (forallb block_ok selected = true ->
     getRangeOfMatches git repoPath opts = Returned (map to_match selected, err) /\
     Z.of_nat (length (map to_match selected))
       = Z.min (PageSize opts) (totalBlocks stdout - lo)) /\
  (lo = totalBlocks stdout ->
     getRangeOfMatches git repoPath opts = Returned ([], err)).
Proof.
  intros Hrun Hne HP HS Hmax Hlo lo hi selected.
  destruct (window_bounds opts (totalBlocks stdout) HP HS Hmax) as [Hstart Hlimit].
  assert (Hsel : slice (blocks stdout) (window_start opts)
                   (window_limit opts (totalBlocks stdout)) = Returned selected).
  { rewrite Hstart, Hlimit. apply slice_inside; unfold totalBlocks in *; nia. }
  assert (Hlen : Z.of_nat (length selected)
                 = Z.min (PageSize opts) (totalBlocks stdout - lo)).
  { apply slice_returned in Hsel as (_ & _ & _ & ->).
    rewrite Hstart, Hlimit. subst lo. nia. }
  assert (Hrange : getRangeOfMatches git repoPath opts
                   = (r ← collect selected []; Returned (finish err r))).
  { rewrite (getRangeOfMatches_nonempty _ _ _ _ _ Hrun Hne), Hsel. done. }
  split; [exact Hrange|]. split; [exact Hlen|]. split; [|split].
  - intros ms e Hret. rewrite Hrange in Hret.
    destruct (collect selected []) as [[ms'|e']|p|] eqn:Hc; cbn in Hret; [| |done|done].
    + injection Hret as <- <-. apply collect_length in Hc. simpl in Hc. lia.
    + injection Hret as <- <-. simpl length. lia.
  - intros Hok. rewrite Hrange, (collect_ok _ [] Hok). cbn.
    split; [done|]. by rewrite length_map.
  - intros Heq. rewrite Hrange.
    assert (selected = []) as ->; [|done].
    apply nil_length_inv. lia.
Qed.


(** The pagination theorem at three blocks, page 2 of size 2. *)
Lemma range_window_paginates_witness :
  Z.of_nat (length (window (blocks three_blocks) 2 3)) = 1 /\
  getRangeOfMatches (canned three_blocks None) "repo" (search_opts "x" 2 2)
    = Returned (map to_match (window (blocks three_blocks) 2 3), None).
Proof.
  destruct (range_window_paginates (canned three_blocks None) "repo"
              (search_opts "x" 2 2) three_blocks None)
    as (_ & Hlen & _ & Hok & _);
    [reflexivity | discriminate | simpl; lia | simpl; lia
    | vm_compute; discriminate | vm_compute; discriminate |].
  split; [exact Hlen|]. apply Hok. reflexivity.
Defined.

(** C1: a page that starts beyond the last block.  With three blocks and
    pageSize 1, page 4 starts at the end of the list and returns no match
    and no error, the empty result of the claim; page 5 starts beyond the
    end, the claim gives it max(0, 3 - 4) = 0 matches and no error, and the
    slice expression panics instead: the upper bound of the window is
    clamped to the number of blocks, the lower bound is not. *)
Theorem range_past_end_panics :
  totalBlocks three_blocks = 3 /\
  getRangeOfMatches (canned three_blocks None) "repo" (search_opts "x" 4 1)
    = Returned ([], None) /\
  window_start (search_opts "x" 5 1) = 4 /\
  window_limit (search_opts "x" 5 1) (totalBlocks three_blocks) = 3 /\
  Z.max 0 (totalBlocks three_blocks - (5 - 1) * 1) = 0 /\
  getRangeOfMatches (canned three_blocks None) "repo" (search_opts "x" 5 1)
    = Panicked (SliceBoundsOutOfRange 4 3).
Proof. repeat split; vm_compute; reflexivity. Qed.




(** C5: on an empty raw output GetNumberOfCodeMatches returns (0, nil) and
    GetRangeOfMatches returns (nil, nil); on a non-empty count-phase
    output the count is the number of lines of the split minus one, which
    is the number of newlines. *)
Theorem empty_output_is_no_result git repoPath :
  (forall keyword err,
     RunPipesInDir git (count_command keyword) repoPath = (EmptyString, err) ->
     getNumberOfCodeMatches git repoPath keyword = (0, None)) /\
  (forall opts err,
     RunPipesInDir git (range_command opts) repoPath = (EmptyString, err) ->
     getRangeOfMatches git repoPath opts = Returned ([], None)) /\
  (forall keyword stdout err,
     RunPipesInDir git (count_command keyword) repoPath = (stdout, err) ->
     stdout <> EmptyString ->
     getNumberOfCodeMatches git repoPath keyword
       = (Z.of_nat (length (Split stdout NL)) - 1, err) /\
     Z.of_nat (length (Split stdout NL)) - 1 = Z.of_nat (count_byte nl stdout)).
Proof.
  split; [|split].
  - intros keyword err. apply getNumberOfCodeMatches_empty.
  - intros opts err. apply getRangeOfMatches_empty.
  - intros keyword stdout err Hrun Hne.
    assert (Hcount : Z.of_nat (length (Split stdout NL)) - 1
                     = Z.of_nat (count_byte nl stdout)).
    { unfold NL. rewrite Split_single_length. lia. }
    split; [|exact Hcount].
    rewrite Hcount. by apply getNumberOfCodeMatches_nonempty.
Qed.

(** The empty-output theorem at an empty output and at one of eight lines. *)
Lemma empty_output_is_no_result_witness :
  getNumberOfCodeMatches (canned EmptyString None) "repo" "x" = (0, None) /\
  getRangeOfMatches (canned EmptyString None) "repo" (search_opts "x" 1 10)
    = Returned ([], None) /\
  getNumberOfCodeMatches (canned three_blocks None) "repo" "x" = (8, None).
Proof.
  split; [|split].
  - apply (empty_output_is_no_result (canned EmptyString None) "repo") with (err := None).
    reflexivity.
  - apply (empty_output_is_no_result (canned EmptyString None) "repo") with (err := None).
    reflexivity.
  - destruct (empty_output_is_no_result (canned three_blocks None) "repo")
      as (_ & _ & Hcount).
    destruct (Hcount "x" three_blocks None) as [Hn _];
      [reflexivity | discriminate |].
    exact Hn.
Defined.

(** C9: when the process fails with empty stdout, both phases and the
    composed search return what they return for a successful run without
    output; the error is dropped. *)
Theorem silent_failure_without_output git repoPath opts e1 e2 :
  RunPipesInDir git (count_command (Keyword opts)) repoPath = (EmptyString, Some e1) ->
  RunPipesInDir git (range_command opts) repoPath = (EmptyString, Some e2) ->
  getNumberOfCodeMatches git repoPath (Keyword opts) = (0, None) /\
  getRangeOfMatches git repoPath opts = Returned ([], None) /\
  getNumberOfCodeMatches git repoPath (Keyword opts)
    = getNumberOfCodeMatches (canned EmptyString None) repoPath (Keyword opts) /\
  getRangeOfMatches git repoPath opts
    = getRangeOfMatches (canned EmptyString None) repoPath opts /\
  ShearchMatchesThisRepo git repoPath opts
    = ShearchMatchesThisRepo (canned EmptyString None) repoPath opts.
Proof.
  intros Hc Hf.
  pose proof (getNumberOfCodeMatches_empty _ _ _ _ Hc) as Hn.
  pose proof (getRangeOfMatches_empty _ _ _ _ Hf) as Hr.
  unfold ShearchMatchesThisRepo. rewrite Hn, Hr. done.
Qed.

(** The silent-failure theorem at a process that exits with status 128. *)
Lemma silent_failure_without_output_witness :
  getNumberOfCodeMatches (canned EmptyString (Some (ErrProcess "exit status 128")))
    "repo" "x" = (0, None) /\
  getRangeOfMatches (canned EmptyString (Some (ErrProcess "exit status 128")))
    "repo" (search_opts "x" 1 10) = Returned ([], None).
Proof.
  destruct (silent_failure_without_output
              (canned EmptyString (Some (ErrProcess "exit status 128")))
              "repo" (search_opts "x" 1 10)
              (ErrProcess "exit status 128") (ErrProcess "exit status 128"))
    as (Hn & Hr & _); [reflexivity | reflexivity |].
  split; [exact Hn | exact Hr].
Defined.

(** C10: a selected block whose newline-terminated header holds no colon,
    after blocks that parse, makes GetRangeOfMatches panic at info[1]; if
    every selected header that ends in a newline holds a colon, the call
    returns. *)
Theorem header_without_colon_panics git repoPath opts stdout err :
  RunPipesInDir git (range_command opts) repoPath = (stdout, err) ->
  stdout <> EmptyString ->
  (forall pre b post h,
     slice (blocks stdout) (window_start opts)
       (window_limit opts (totalBlocks stdout)) = Returned (pre ++ b :: post)%list ->
     forallb block_ok pre = true ->
     ReadString b = (h, None) -> contains_byte ":" h = false ->
     getRangeOfMatches git repoPath opts = Panicked (IndexOutOfRange 1 1)) /\
  (forall selected,
     slice (blocks stdout) (window_start opts)
       (window_limit opts (totalBlocks stdout)) = Returned selected ->
     forallb block_safe selected = true ->
     exists r, getRangeOfMatches git repoPath opts = Returned r).
Proof.
  intros Hrun Hne.
  pose proof (getRangeOfMatches_nonempty _ _ _ _ _ Hrun Hne) as Hrange.
  split.
  - intros pre b post h Hs Hpre Hb Hh. rewrite Hrange, Hs. cbn.
    by rewrite (collect_bad pre post b h [] Hpre Hb Hh).
  - intros selected Hs Hsafe. rewrite Hrange, Hs. cbn.
    destruct (collect_safe selected [] Hsafe) as [r ->]. by eexists.
Qed.

(** The panic theorem at the single block [binary file matches]. *)
Lemma header_without_colon_panics_witness :
  getRangeOfMatches (canned headless_block None) "repo" (search_opts "x" 1 10)
    = Panicked (IndexOutOfRange 1 1).
Proof.
  destruct (header_without_colon_panics (canned headless_block None) "repo"
              (search_opts "x" 1 10) headless_block None) as [Hbad _];
    [reflexivity | discriminate |].
  apply (Hbad [] headless_block [] headless_block); reflexivity.
Defined.

End SearchTheorems.

(** ** Parents *)

Section ParentTheorems.
Import Commits Samples.

Lemma ParentID_inside (c : Commit) (n : Z) (id : sha1) :
  0 <= n -> parents c !! Z.to_nat n = Some id ->
  ParentID c n = Returned (id, None).
Proof.
  intros Hn Hid. unfold ParentID.
  pose proof (lookup_lt_Some _ _ _ Hid) as Hlt.
  replace (Z.of_nat (length (parents c)) <=? n) with false
    by (symmetry; apply Z.leb_gt; lia).
  rewrite <- (Z2Nat.id n Hn), (index_at _ _ _ Hid). done.
Qed.

(** X8: a negative index passes the bound check of [ParentID] and panics. *)
Lemma Parent_negative (c : Commit) (n : Z) :
  n < 0 ->
  Parent c n = Panicked (IndexOutOfRange n (Z.of_nat (length (parents c)))).
Proof.
  intros Hn. unfold Parent, ParentID.
  replace (Z.of_nat (length (parents c)) <=? n) with false
    by (symmetry; apply Z.leb_gt; lia).
  by rewrite (index_negative _ _ Hn).
Qed.

(** C8, amended: for 0 <= n < ParentCount(), Parent(n) is the repository's
    commit lookup of parents[n]: a full commit whose id is parents[n] when
    the object is in the repository, the lookup's NotFound otherwise; for
    n >= ParentCount(), Parent(n) fails with NotFound. *)
Theorem parent_is_lookup (c : Commit) (n : Z) :
  (0 <= n < ParentCount c ->
   exists id, parents c !! Z.to_nat n = Some id /\
     (forall o, objects (repo (tree c)) !! id = Some o ->
        exists p, Parent c n = Returned (Some p, None) /\
                  getCommit (repo (tree c)) id = inl p /\
                  ID p = id /\
                  parents p = obj_parents o /\
                  CommitMessage p = obj_message o /\
                  Author p = obj_author o /\ Committer p = obj_committer o) /\
     (objects (repo (tree c)) !! id = None ->
        Parent c n = Returned (None, Some (ErrNotExist id EmptyString)))) /\
  (ParentCount c <= n ->
   Parent c n = Returned (None, Some (ErrNotExist EmptyString EmptyString))).
Proof.
  unfold ParentCount. split.
  - intros [H0 Hlt].
    destruct (lookup_lt_is_Some_2 (parents c) (Z.to_nat n)) as [id Hid]; [lia|].
    exists id. split; [exact Hid|].
    unfold Parent. rewrite (ParentID_inside c n id H0 Hid). cbn.
    unfold getCommit. split.
    + intros o Ho. rewrite Ho. eexists. repeat split.
    + intros Ho. by rewrite Ho.
  - intros Hge. unfold Parent, ParentID.
    replace (Z.of_nat (length (parents c)) <=? n) with true
      by (symmetry; apply Z.leb_le; lia).
    done.
Qed.

(** The parent theorem at the tip of a repository that holds its parent. *)
Lemma parent_is_lookup_witness :
  (exists p, Parent (tip_of full_repo ∅) 0 = Returned (Some p, None) /\
             ID p = "aaaa" /\ CommitMessage p = "initial") /\
  Parent (tip_of full_repo ∅) 1
    = Returned (None, Some (ErrNotExist EmptyString EmptyString)).
Proof.
  destruct (parent_is_lookup (tip_of full_repo ∅) 0) as [Hin _].
  destruct Hin as (id & Hid & Hfound & _); [unfold ParentCount; simpl; lia|].
  injection Hid as <-.
  destruct (Hfound root_object) as (p & Hp & _ & Hi & _ & Hm & _); [reflexivity|].
  split; [exists p; repeat split; assumption|].
  apply (parent_is_lookup (tip_of full_repo ∅) 1). unfold ParentCount. simpl. lia.
Defined.

(** C8 as stated fails: in a shallow repository the first parent of the tip
    does not resolve although 0 < ParentCount(), and a negative index
    below ParentCount() panics. *)
Lemma parent_below_count_unresolved :
  0 < ParentCount (tip_of shallow_repo ∅) /\
  Parent (tip_of shallow_repo ∅) 0
    = Returned (None, Some (ErrNotExist "aaaa" EmptyString)) /\
  -1 < ParentCount (tip_of full_repo ∅) /\
  Parent (tip_of full_repo ∅) (-1) = Panicked (IndexOutOfRange (-1) 1).
Proof. repeat split. Qed.

End ParentTheorems.

(** ** Submodules *)

Section SubmoduleTheorems.
Import Commits Samples.

Lemma scan_modules_no_section (lines : list string) cache path :
  no_section lines = true ->
  scan_modules lines cache false path = Returned cache.
Proof.
  induction lines as [|text rest IH]; [done|].
  unfold no_section. cbn [forallb scan_modules].
  intros H. apply andb_true_iff in H as [Ht Hrest].
  apply negb_true_iff in Ht. rewrite Ht. by apply IH.
Qed.

Lemma scan_one_submodule :
  scan_modules (ScanLines one_submodule) ∅ false EmptyString
    = Returned {[ "libs/x" := {| sm_path := "libs/x";
                                 sm_url := "https://example.com/x.git" |} ]}.
Proof. vm_compute. reflexivity. Qed.

(** C3, amended: for the one-section blob GetSubModule("libs/x") returns the
    submodule with that path and url; a blob that exists and holds no
    submodule section gives the empty mapping, and every lookup in it
    returns (nil, nil); NotFound is what a commit without a .gitmodules
    entry gives; a path with no entry in a parsed mapping gives (nil, nil). *)
Theorem submodule_lookup :
  (forall c,
     submoduleCache c = None ->
     entries (tree c) !! ".gitmodules"
       = Some {| blob_data := one_submodule; blob_err := None |} ->
     exists c',
       GetSubModule c "libs/x"
         = Returned (Some {| sm_path := "libs/x";
                             sm_url := "https://example.com/x.git" |}, None, c') /\
       submoduleCache c'
         = Some {[ "libs/x" := {| sm_path := "libs/x";
                                  sm_url := "https://example.com/x.git" |} ]}) /\
  (forall c entry entryname,
     submoduleCache c = None ->
     entries (tree c) !! ".gitmodules" = Some entry ->
     blob_err entry = None ->
     no_section (ScanLines (blob_data entry)) = true ->
     GetSubModules c = Returned (Some ∅, None, set_cache c ∅) /\
     GetSubModule c entryname = Returned (None, None, set_cache c ∅)) /\
  (forall c entryname,
     submoduleCache c = None ->
     entries (tree c) !! ".gitmodules" = None ->
     GetSubModule c entryname
       = Returned (None, Some (ErrNotExist EmptyString ".gitmodules"), c)) /\
  (forall c (modules : gmap string SubModule) c' entryname,
     GetSubModules c = Returned (Some modules, None, c') ->
     modules !! entryname = None ->
     GetSubModule c entryname = Returned (None, None, c')).
Proof.
  split; [|split; [|split]].
  - intros c Hc He. eexists.
    unfold GetSubModule, GetSubModules, GetTreeEntryByPath.
    rewrite Hc, He. cbn [blob_err blob_data]. rewrite scan_one_submodule. cbn.
    by rewrite lookup_singleton_eq.
  - intros c entry entryname Hc He Herr Hno.
    assert (Hm : GetSubModules c = Returned (Some ∅, None, set_cache c ∅)).
    { unfold GetSubModules, GetTreeEntryByPath. rewrite Hc, He, Herr.
      by rewrite (scan_modules_no_section _ _ _ Hno). }
    split; [exact Hm|]. unfold GetSubModule. rewrite Hm. cbn.
    by rewrite lookup_empty.
  - intros c entryname Hc He.
    unfold GetSubModule, GetSubModules, GetTreeEntryByPath. by rewrite Hc, He.
  - intros c modules c' entryname Hm Hnone.
    unfold GetSubModule. rewrite Hm. cbn. by rewrite Hnone.
Qed.

(** The submodule theorem at the one-section blob, at a blob without
    sections and at a commit without the blob. *)
Lemma submodule_lookup_witness :
  (exists c',
     GetSubModule (tip_of full_repo (blob one_submodule)) "libs/x"
       = Returned (Some {| sm_path := "libs/x";
                           sm_url := "https://example.com/x.git" |}, None, c')) /\
  GetSubModule (tip_of full_repo (blob no_submodule)) "libs/x"
    = Returned (None, None,
                set_cache (tip_of full_repo (blob no_submodule)) ∅) /\
  GetSubModule (tip_of full_repo ∅) "libs/x"
    = Returned (None, Some (ErrNotExist EmptyString ".gitmodules"),
                tip_of full_repo ∅).
Proof.
  destruct submodule_lookup as (Hone & Hempty & Hmissing & _).
  split; [|split].
  - destruct (Hone (tip_of full_repo (blob one_submodule))) as (c' & Hget & _);
      [reflexivity | reflexivity |].
    exists c'. exact Hget.
  - apply (Hempty (tip_of full_repo (blob no_submodule))
             {| blob_data := no_submodule; blob_err := None |} "libs/x");
      reflexivity.
  - apply (Hmissing (tip_of full_repo ∅) "libs/x"); reflexivity.
Defined.

(** C3 as stated fails: a blob that exists and holds no submodule section
    does not fail with NotFound; the lookup returns (nil, nil). *)
Lemma blob_without_section_is_no_error :
  exists c',
    GetSubModule (tip_of full_repo (blob no_submodule)) "libs/x"
      = Returned (None, None, c') /\
    forall id relpath,
      GetSubModule (tip_of full_repo (blob no_submodule)) "libs/x"
        <> Returned (None, Some (ErrNotExist id relpath), c').
Proof.
  eexists. split; [vm_compute; reflexivity|].
  intros id relpath. vm_compute. discriminate.
Qed.

End SubmoduleTheorems.

(** ** File status *)

Section FileStatusTheorems.
Import FileStatus Samples StatusNotions.

Lemma string_of_list_ascii_nonempty (l : list ascii) :
  l <> [] -> string_of_list_ascii l <> EmptyString.
Proof. destruct l; [done|]. intros _. discriminate. Qed.

Lemma flush_nonempty (cur : list ascii) :
  Forall (fun f => f <> EmptyString) (flush cur).
Proof.
  destruct cur as [|c cur]; [constructor|].
  cbn [flush]. constructor; [|constructor].
  apply string_of_list_ascii_nonempty.
  intros H. apply (f_equal (@length ascii)) in H.
  rewrite length_rev in H. discriminate.
Qed.

(** No field of a line is empty. *)
Lemma fields_aux_nonempty (s : string) :
  forall skip cur, Forall (fun f => f <> EmptyString) (fields_aux s skip cur).
Proof.
  induction s as [|c s IH]; intros skip cur; cbn [fields_aux].
  - apply flush_nonempty.
  - destruct skip as [|k]; [|apply IH].
    destruct (space_width (String c s)); [apply IH|].
    apply Forall_app. split; [apply flush_nonempty | apply IH].
Qed.

Lemma classify_line_step (text : string) (fileStatus : CommitFileStatus) :
  classify_line text fileStatus = Returned (status_step fileStatus text).
Proof.
  unfold classify_line, status_step.
  pose proof (fields_aux_nonempty text 0%nat []) as Hne. fold (Fields text) in Hne.
  destruct (Fields text) as [|f0 [|f1 rest]]; [done| |].
  - by destruct f0.
  - apply Forall_cons in Hne as [Hf0 _].
    destruct f0 as [|c f0]; [done|].
    replace (Z.of_nat (length (String c f0 :: f1 :: rest)) <? 2) with false
      by (symmetry; apply Z.ltb_ge; simpl length; lia).
    rewrite (index_at _ 0%nat (String c f0)) by done.
    cbn [mbind outcome_bind first_byte].
    change 1 with (Z.of_nat 1).
    rewrite !(index_at (String c f0 :: f1 :: rest) 1%nat f1) by done.
    destruct (Ascii.eqb c "A"); [done|].
    destruct (Ascii.eqb c "D"); [done|].
    destruct (Ascii.eqb c "M"); done.
Qed.

Lemma classify_fold (lines : list string) :
  forall fileStatus,
  classify lines fileStatus = Returned (fold_left status_step lines fileStatus).
Proof.
  induction lines as [|text rest IH]; intros fileStatus; [done|].
  cbn [classify fold_left]. rewrite classify_line_step. cbn. apply IH.
Qed.

(** C6: for every output the scanner consumes, the status is that of its
    lines taken in order, and for every sequence of lines the loop returns
    without error; a line is split into white-space-separated fields; a
    line with fewer than two fields changes nothing; otherwise the first
    byte of the first field sends the second field to added (A), removed
    (D) or modified (M), and any other byte changes nothing; the four
    sample lines give foo.txt added, bar.txt removed, baz.txt modified. *)
Theorem file_status_classifies git repoPath commitID stdout stderr :
  RunInDirPipeline git (status_command commitID) repoPath = (stdout, stderr, None) ->
  ScanStuck stdout = false ->
  GetCommitFileStatus git repoPath commitID
    = Returned (Some (fold_left status_step (ScanLines stdout) NewCommitFileStatus),
                None) /\
  (forall lines fileStatus,
     classify lines fileStatus = Returned (fold_left status_step lines fileStatus)) /\
  (forall fileStatus text,
     (length (Fields text) < 2)%nat -> status_step fileStatus text = fileStatus) /\
  (forall fileStatus text c f0 path rest,
     Fields text = String c f0 :: path :: rest ->
     status_step fileStatus text =
       if Ascii.eqb c "A" then
         {| Added := (Added fileStatus ++ [path])%list;
            Removed := Removed fileStatus; Modified := Modified fileStatus |}
       else if Ascii.eqb c "D" then
         {| Added := Added fileStatus;
            Removed := (Removed fileStatus ++ [path])%list;
            Modified := Modified fileStatus |}
       else if Ascii.eqb c "M" then
         {| Added := Added fileStatus; Removed := Removed fileStatus;
            Modified := (Modified fileStatus ++ [path])%list |}
       else fileStatus) /\
  (forall text, Forall (fun f => f <> EmptyString) (Fields text)) /\
  (stdout = name_status_report ->
   GetCommitFileStatus git repoPath commitID
     = Returned (Some {| Added := ["foo.txt"]; Removed := ["bar.txt"];
                         Modified := ["baz.txt"] |}, None)).
Proof.
  intros Hrun Hscan.
  assert (Hget : GetCommitFileStatus git repoPath commitID
    = Returned (Some (fold_left status_step (ScanLines stdout) NewCommitFileStatus),
                None)).
  { unfold GetCommitFileStatus. rewrite Hrun, Hscan, classify_fold. done. }
  split; [exact Hget|]. split; [apply classify_fold|]. split; [|split; [|split]].
  - intros fileStatus text Hlen. unfold status_step.
    destruct (Fields text) as [|f0 [|f1 rest]]; simpl in Hlen; try lia; [done|].
    by destruct f0.
  - intros fileStatus text c f0 path rest Hf. unfold status_step. by rewrite Hf.
  - intros text. apply fields_aux_nonempty.
  - intros ->. rewrite Hget. vm_compute. reflexivity.
Qed.

(** The classifier theorem at the four sample lines. *)
Lemma file_status_classifies_witness :
  GetCommitFileStatus (canned name_status_report None) "repo" "bbbb"
    = Returned (Some {| Added := ["foo.txt"]; Removed := ["bar.txt"];
                        Modified := ["baz.txt"] |}, None).
Proof.
  destruct (file_status_classifies (canned name_status_report None) "repo" "bbbb"
              name_status_report EmptyString) as (_ & _ & _ & _ & _ & Hsample);
    [reflexivity | reflexivity |].
  apply Hsample. reflexivity.
Defined.

End FileStatusTheorems.

(** ** Commit histogram *)

Section HistogramTheorems.
Import Stats Samples StatsNotions.

Lemma wrap64_add_l (x y : Z) : wrap64 (wrap64 x + y) = wrap64 (x + y).
Proof.
  unfold wrap64. f_equal.
  replace ((x + 2 ^ 63) mod 2 ^ 64 - 2 ^ 63 + y + 2 ^ 63)
    with ((x + 2 ^ 63) mod 2 ^ 64 + y) by lia.
  rewrite Zplus_mod_idemp_l. f_equal. lia.
Qed.

Lemma fold_add64 (l : list Z) :
  forall x, fold_left add64 l (wrap64 x) = wrap64 (x + fold_right Z.add 0 l).
Proof.
  induction l as [|a l IH]; intros x; cbn [fold_left fold_right].
  - f_equal. lia.
  - unfold add64 at 2. rewrite wrap64_add_l, IH. f_equal. lia.
Qed.

Lemma drop_last_Split (s sep : string) :
  drop_last (Split s sep)
    = Returned (take (length (Split s sep) - 1) (Split s sep)).
Proof.
  unfold drop_last. pose proof (Split_length_pos s sep) as Hpos.
  rewrite slice_inside by lia. cbn [drop Z.to_nat].
  do 2 f_equal. lia.
Qed.

Lemma report_lines_length (stdout : string) :
  length (report_lines stdout) = count_byte nl stdout.
Proof.
  unfold report_lines, NL. rewrite length_take, Split_single_length. lia.
Qed.

Lemma cut_single_absent (c : ascii) (s : string) :
  contains_byte c s = false -> cut (String c EmptyString) s = None.
Proof.
  induction s as [|d s IH]; [done|].
  cbn [contains_byte cut]. rewrite prefix_single.
  intros H. apply orb_false_iff in H as [-> Hs]. by rewrite (IH Hs).
Qed.

Lemma cut_single_present (c : ascii) (s : string) :
  contains_byte c s = true -> exists a b, cut (String c EmptyString) s = Some (a, b).
Proof.
  induction s as [|d s IH]; [done|].
  cbn [contains_byte cut]. rewrite prefix_single.
  destruct (Ascii.eqb d c); [by eexists _, _|].
  intros H. destruct (IH H) as (a & b & ->). by eexists _, _.
Qed.

Lemma SplitN_two_present (line : string) :
  contains_byte ":" line = true ->
  exists a b, SplitN line ":" 2 = [a; b].
Proof.
  intros H. destruct (cut_single_present _ _ H) as (a & b & Hc).
  exists a, b. cbn [SplitN]. by rewrite Hc.
Qed.

Lemma SplitN_two_absent (line : string) :
  contains_byte ":" line = false -> SplitN line ":" 2 = [line].
Proof. intros H. cbn [SplitN]. by rewrite (cut_single_absent _ _ H). Qed.

Lemma count_rows_ok (user : string) (lines : list string) :
  forall commits,
  forallb (contains_byte ":") lines = true ->
  count_rows lines user commits
    = Returned {| Info := (Info commits ++ map (row_of user) lines)%list;
                  Total := fold_left add64 (map NumCommits (map (row_of user) lines))
                             (Total commits) |}.
Proof.
  induction lines as [|line rest IH]; intros commits H.
  - cbn. rewrite app_nil_r. by destruct commits.
  - cbn [forallb] in H. apply andb_true_iff in H as [Hl Hrest].
    destruct (SplitN_two_present line Hl) as (a & b & Hs).
    assert (Hrow : row_of user line
                   = {| NumCommits := count_of a; Date := b; User := user |}).
    { unfold row_of. by rewrite Hs. }
    cbn [count_rows map fold_left]. rewrite Hs, Hrow.
    change (index [a; b] 0) with (Returned (A := string) a).
    change (index [a; b] 1) with (Returned (A := string) b).
    cbn [mbind outcome_bind NumCommits]. rewrite (IH _ Hrest). cbn [Info Total].
    by rewrite <- app_assoc.
Qed.

Lemma count_rows_returned (user : string) (lines : list string) :
  forall commits commits',
  count_rows lines user commits = Returned commits' ->
  forallb (contains_byte ":") lines = true.
Proof.
  induction lines as [|line rest IH]; intros commits commits' H; [done|].
  cbn [forallb]. cbn [count_rows] in H.
  destruct (contains_byte ":" line) eqn:Hl.
  - destruct (SplitN_two_present line Hl) as (a & b & Hs). rewrite Hs in H.
    change (index [a; b] 0) with (Returned (A := string) a) in H.
    change (index [a; b] 1) with (Returned (A := string) b) in H.
    cbn [mbind outcome_bind] in H. by apply IH in H.
  - rewrite (SplitN_two_absent line Hl) in H. cbn in H. done.
Qed.

(** What [strconv.ParseInt] returns with an error. *)
Lemma ParseInt_error (s : string) (v : Z) (e : error) :
  ParseInt s = (v, Some e) ->
  (e = ErrSyntax "ParseInt" s /\ v = 0) \/
  (e = ErrRange "ParseInt" s /\ (v = max_int64 \/ v = min_int64)).
Proof.
  unfold ParseInt. destruct s as [|c s]; [intros [= <- <-]; by left|].
  destruct (ParseUint _) as [un [[]|]];
    [intros [= <- <-]; by left| |];
    repeat match goal with
           | |- context [if ?b then _ else _] => destruct b
           end;
    intros [= <- <-] || intros [=]; right; split; auto.
Qed.

End HistogramTheorems.

(** ** Insertions and deletions *)

Section NumstatTheorems.
Import Stats Samples StatsNotions NumstatNotions.

Lemma is_digit_byte (c : ascii) :
  is_digit c = true -> (48 <= byte c <= 57)%N.
Proof.
  unfold is_digit. intros H. apply andb_true_iff in H as [H1 H2].
  apply N.leb_le in H1, H2. lia.
Qed.

Lemma digit_no_space (c : ascii) (s : string) :
  is_digit c = true ->
  space_width (String c s) = 0%nat /\ space_width_rev (String c s) = 0%nat.
Proof.
  intros H. apply is_digit_byte in H.
  assert (H1 : forall t, space_width (String c t) = 0%nat).
  { intros t. unfold space_width.
    destruct t as [|d [|e t]]; split_ifs; try done; byte_facts; lia. }
  assert (H2 : forall d, space_width (String d (String c EmptyString)) <> 2%nat).
  { intros d. unfold space_width. split_ifs; try done; byte_facts; lia. }
  assert (H3 : forall e d,
             space_width (String e (String d (String c EmptyString))) <> 3%nat).
  { intros e d. unfold space_width. split_ifs; try done; byte_facts; lia. }
  split; [apply H1|].
  unfold space_width_rev.
  destruct ((9 <=? byte c) && (byte c <=? 13) || (byte c =? 32))%N eqn:Hsp;
    [byte_facts; lia|].
  destruct s as [|d [|e s]]; [done| |].
  - specialize (H2 d). apply Nat.eqb_neq in H2. by rewrite H2.
  - specialize (H2 d). specialize (H3 e d).
    apply Nat.eqb_neq in H2, H3. by rewrite H2, H3.
Qed.


Lemma rev_string_involutive (s : string) : rev_string (rev_string s) = s.
Proof.
  unfold rev_string.
  by rewrite list_ascii_of_string_of_list_ascii, rev_involutive,
       string_of_list_ascii_of_string.
Qed.

Lemma rev_string_digits (c : ascii) (s : string) :
  digits (String c s) ->
  exists d t, rev_string (String c s) = String d t /\ is_digit d = true.
Proof.
  unfold digits, rev_string. intros H. apply Forall_rev in H.
  destruct (rev (list_ascii_of_string (String c s))) as [|d l] eqn:E.
  - apply (f_equal (@length ascii)) in E. rewrite length_rev in E. discriminate.
  - apply Forall_cons in H as [Hd _]. by exists d, (string_of_list_ascii l).
Qed.

(** White space is not trimmed off a run of digits. *)
Lemma TrimSpace_digits (r : string) : digits r -> TrimSpace r = r.
Proof.
  intros H. destruct r as [|c s]; [done|].
  assert (Hc : is_digit c = true) by (by apply Forall_cons in H as [? _]).
  unfold TrimSpace. cbn [String.length trim_left_space].
  rewrite (proj1 (digit_no_space c s Hc)).
  destruct (rev_string_digits c s H) as (d & t & Hrev & Hd). rewrite Hrev.
  cbn [String.length trim_right_space_rev].
  rewrite (proj2 (digit_no_space d t Hd)).
  by rewrite <- Hrev, rev_string_involutive.
Qed.

Lemma flush_digits (cur : list ascii) :
  Forall (fun c => is_digit c = true) cur ->
  Forall (fun r => digits r /\ r <> EmptyString) (flush cur).
Proof.
  intros H. destruct cur as [|c cur]; [constructor|].
  cbn [flush]. constructor; [|constructor]. split.
  - unfold digits. rewrite list_ascii_of_string_of_list_ascii.
    by apply Forall_rev.
  - apply string_of_list_ascii_nonempty. intros E.
    apply (f_equal (@length ascii)) in E. rewrite length_rev in E. discriminate.
Qed.

(** Every run the pattern finds is a non-empty string of digits. *)
Lemma runs_aux_digits (s : string) :
  forall cur, Forall (fun c => is_digit c = true) cur ->
  Forall (fun r => digits r /\ r <> EmptyString) (runs_aux s cur).
Proof.
  induction s as [|c s IH]; intros cur Hcur; cbn [runs_aux].
  - by apply flush_digits.
  - destruct (is_digit c) eqn:Hc.
    + apply IH. by constructor.
    + apply Forall_app. split; [by apply flush_digits | apply IH; constructor].
Qed.

Lemma digit_value (c : ascii) :
  is_digit c = true -> 0 <= Z.of_N (byte c) - 48 <= 9.
Proof. intros H. apply is_digit_byte in H. lia. Qed.

Lemma decimal_from_mono (r : string) :
  digits r -> forall n, 0 <= n -> n <= decimal_from r n.
Proof.
  induction r as [|c r IH]; intros H n Hn; cbn [decimal_from]; [lia|].
  apply Forall_cons in H as [Hc Hr]. apply digit_value in Hc.
  specialize (IH Hr (n * 10 + (Z.of_N (byte c) - 48))). lia.
Qed.

(** The digit loop computes the number of the run when it fits 64 bits
    and saturates otherwise. *)
Lemma parse_uint_digits (r : string) :
  digits r -> forall n, 0 <= n <= max_uint64 ->
  parse_uint_aux r n =
    if decimal_from r n <=? max_uint64 then (decimal_from r n, None)
    else (max_uint64, Some NumRange).
Proof.
  induction r as [|c r IH]; intros H n Hn; cbn [parse_uint_aux decimal_from].
  - replace (n <=? max_uint64) with true by (symmetry; apply Z.leb_le; lia). done.
  - apply Forall_cons in H as [Hc Hr]. rewrite Hc.
    pose proof (digit_value c Hc) as Hd.
    pose proof (decimal_from_mono r Hr (n * 10 + (Z.of_N (byte c) - 48))) as Hmono.
    assert (Hcut : max_uint64 / 10 + 1 = 1844674407370955162) by reflexivity.
    assert (Hmax : max_uint64 = 18446744073709551615) by reflexivity.
    rewrite Hcut.
    destruct (1844674407370955162 <=? n) eqn:E1.
    + apply Z.leb_le in E1.
      replace (decimal_from r (n * 10 + (Z.of_N (byte c) - 48)) <=? max_uint64)
        with false by (symmetry; apply Z.leb_gt; lia). done.
    + apply Z.leb_gt in E1.
      destruct (max_uint64 <? n * 10 + (Z.of_N (byte c) - 48)) eqn:E2.
      * apply Z.ltb_lt in E2.
        replace (decimal_from r (n * 10 + (Z.of_N (byte c) - 48)) <=? max_uint64)
          with false by (symmetry; apply Z.leb_gt; lia). done.
      * apply Z.ltb_ge in E2. apply IH; [done|lia].
Qed.

Lemma digit_is_no_sign (c : ascii) :
  is_digit c = true -> Ascii.eqb c "+" = false /\ Ascii.eqb c "-" = false.
Proof.
  intros H. apply is_digit_byte in H.
  split; apply Ascii.eqb_neq; intros ->; vm_compute in H; destruct H as [H _];
    by apply H.
Qed.

(** [ParseInt] on a run of digits. *)
Lemma ParseInt_digits (r : string) :
  digits r -> r <> EmptyString ->
  ParseInt r =
    if decimal r <=? max_int64 then (decimal r, None)
    else (max_int64, Some (ErrRange "ParseInt" r)).
Proof.
  intros H Hne. destruct r as [|c s]; [done|].
  assert (Hc : is_digit c = true) by (by apply Forall_cons in H as [? _]).
  destruct (digit_is_no_sign c Hc) as [Hplus Hminus].
  unfold ParseInt, ParseUint. rewrite Hplus, Hminus. cbn [orb negb andb].
  rewrite (parse_uint_digits _ H 0) by (unfold max_uint64; lia).
  fold (decimal (String c s)).
  pose proof (decimal_from_mono _ H 0 ltac:(lia)) as Hpos.
  fold (decimal (String c s)) in Hpos.
  assert (Hmax : max_uint64 = 18446744073709551615) by reflexivity.
  assert (Hmax' : max_int64 = 9223372036854775807) by reflexivity.
  assert (Hpow : 2 ^ 63 = 9223372036854775808) by reflexivity.
  rewrite Hpow.
  destruct (decimal (String c s) <=? max_uint64) eqn:E1.
  - apply Z.leb_le in E1.
    destruct (9223372036854775808 <=? decimal (String c s)) eqn:E2.
    + apply Z.leb_le in E2.
      replace (decimal (String c s) <=? max_int64) with false
        by (symmetry; apply Z.leb_gt; lia). done.
    + apply Z.leb_gt in E2.
      replace (decimal (String c s) <=? max_int64) with true
        by (symmetry; apply Z.leb_le; lia). done.
  - apply Z.leb_gt in E1.
    replace (9223372036854775808 <=? max_uint64) with true by reflexivity.
    replace (decimal (String c s) <=? max_int64) with false
      by (symmetry; apply Z.leb_gt; lia). done.
Qed.

(** What a line adds is its [contribution], whatever the error before. *)
Lemma numstat_line_contribution (line : string) (err : option error) :
  exists err', numstat_line line err = (contribution line, err').
Proof.
  unfold numstat_line, contribution.
  pose proof (runs_aux_digits line [] ltac:(constructor)) as Hruns.
  fold (FindAllDigits line) in Hruns.
  destruct (FindAllDigits line) as [|a [|b [|c l]]]; try by eexists.
  apply Forall_cons in Hruns as [[Ha Hane] Hruns].
  apply Forall_cons in Hruns as [[Hb Hbne] _].
  rewrite (TrimSpace_digits a Ha), (TrimSpace_digits b Hb).
  rewrite (ParseInt_digits a Ha Hane), (ParseInt_digits b Hb Hbne).
  unfold run_value.
  destruct (decimal a <=? max_int64), (decimal b <=? max_int64); by eexists.
Qed.

Lemma numstat_loop_sums (lines : list string) :
  forall x y err, exists err',
  numstat_loop lines (wrap64 x) (wrap64 y) err =
    (wrap64 (x + sum_of (map fst (map contribution lines))),
     wrap64 (y + sum_of (map snd (map contribution lines))), err').
Proof.
  induction lines as [|line rest IH]; intros x y err; cbn [numstat_loop map sum_of fold_right].
  - exists err. do 2 f_equal; f_equal; lia.
  - destruct (numstat_line_contribution line err) as [err1 ->].
    destruct (contribution line) as [ins del]. cbn [fst snd].
    unfold add64. rewrite !wrap64_add_l.
    destruct (IH (x + ins) (y + del) err1) as [err' ->].
    exists err'. unfold sum_of. do 2 f_equal; f_equal; lia.
Qed.

(** X23: the totals are the 64-bit sums over the lines of what each line
    adds: a line with exactly two numeric runs adds their numbers (a
    number that does not fit 64 bits counts as 0), a line with any other
    count of runs adds nothing; Files is the number of lines.  The digits
    of a file name are a run: the lines 10 2 file1 and 3 1 file2 hold
    three runs each and give Insertions 0, Deletions 0, Files 2, and the
    same counts with the names README and Makefile give 13, 3 and 2. *)
Theorem numstat_totals git user repoPath stdout :
  RunInDir git (numstat_command user) repoPath = (stdout, None) ->
  (exists err,
     numStatCommitsPerUser git user repoPath
       = Returned (Some {| Insertions :=
                             wrap64 (sum_of (map fst (map contribution
                                                        (report_lines stdout))));
                           Deletions :=
                             wrap64 (sum_of (map snd (map contribution
                                                        (report_lines stdout))));
                           Author := user;
                           Files := Z.of_nat (count_byte nl stdout) |}, err)) /\
  (forall line ins del,
     FindAllDigits line = [ins; del] ->
     contribution line = (run_value ins, run_value del) /\
     (decimal ins <= max_int64 -> run_value ins = decimal ins) /\
     (decimal del <= max_int64 -> run_value del = decimal del)) /\
  (forall line,
     length (FindAllDigits line) <> 2%nat -> contribution line = (0, 0)) /\
  (stdout = numstat_sample ->
   numStatCommitsPerUser git user repoPath
     = Returned (Some {| Insertions := 0; Deletions := 0;
                         Author := user; Files := 2 |}, None)) /\
  (stdout = numstat_plain ->
   numStatCommitsPerUser git user repoPath
     = Returned (Some {| Insertions := 13; Deletions := 3;
                         Author := user; Files := 2 |}, None)).
Proof.
  intros Hrun.
  assert (Hunfold : numStatCommitsPerUser git user repoPath =
    let '(insertions, deletions, err) :=
      numstat_loop (report_lines stdout) 0 0 None in
    Returned (Some {| Insertions := insertions; Deletions := deletions;
                      Author := user;
                      Files := Z.of_nat (length (report_lines stdout)) |}, err)).
  { unfold numStatCommitsPerUser. rewrite Hrun, drop_last_Split. done. }
  split; [|split; [|split; [|split]]].
  - destruct (numstat_loop_sums (report_lines stdout) 0 0 None) as [err Hloop].
    exists err. rewrite Hunfold. change (wrap64 0) with 0 in Hloop.
    rewrite Hloop, report_lines_length. done.
  - intros line ins del Hruns. unfold contribution, run_value. rewrite Hruns.
    split; [done|]. split; intros Hfit;
      apply Z.leb_le in Hfit; by rewrite Hfit.
  - intros line Hlen. unfold contribution.
    by destruct (FindAllDigits line) as [|a [|b [|c l]]].
  - intros ->. rewrite Hunfold. vm_compute. reflexivity.
  - intros ->. rewrite Hunfold. vm_compute. reflexivity.
Qed.

(** The numstat theorem at the sample lines with digit-free file names. *)
Lemma numstat_totals_witness :
  numStatCommitsPerUser (canned numstat_plain None) "bob" "repo"
    = Returned (Some {| Insertions := 13; Deletions := 3;
                        Author := "bob"; Files := 2 |}, None).
Proof.
  destruct (numstat_totals (canned numstat_plain None) "bob" "repo" numstat_plain)
    as (_ & _ & _ & _ & Hplain); [reflexivity|].
  apply Hplain. reflexivity.
Defined.

(** C2: the two sample lines of the claim.  The pattern is matched against
    the whole line, so the digit of the file name is a third numeric run
    and neither line is counted: the call returns Insertions 0 and
    Deletions 0 where the claim gives 13 and 3; Files is 2 in both. *)
Theorem numstat_sample_counts_nothing :
  FindAllDigits ("10" +:+ tab +:+ "2" +:+ tab +:+ "file1") = ["10"; "2"; "1"] /\
  numStatCommitsPerUser (canned numstat_sample None) "bob" "repo"
    = Returned (Some {| Insertions := 0; Deletions := 0;
                        Author := "bob"; Files := 2 |}, None) /\
  numStatCommitsPerUser (canned numstat_sample None) "bob" "repo"
    <> Returned (Some {| Insertions := 13; Deletions := 3;
                         Author := "bob"; Files := 2 |}, None).
Proof.
  split; [vm_compute; reflexivity|]. split; [vm_compute; reflexivity|].
  vm_compute. discriminate.
Qed.

End NumstatTheorems.

Import MoreNotions.

(** ** Further facts about the text functions *)

Section MoreTextFacts.
Import MoreNotions.

Lemma append_cons (c : ascii) (a b : string) :
  String c a +:+ b = String c (a +:+ b).
Proof. reflexivity. Qed.

Lemma append_empty (b : string) : EmptyString +:+ b = b.
Proof. reflexivity. Qed.

Lemma append_nil_r (s : string) : s +:+ EmptyString = s.
Proof. induction s as [|c s IH]; [done|]. by rewrite append_cons, IH. Qed.

Lemma append_assoc (a b c : string) : (a +:+ b) +:+ c = a +:+ (b +:+ c).
Proof. induction a as [|d a IH]; [done|]. by rewrite !append_cons, IH. Qed.

Lemma prefix_drop (sep s : string) :
  String.prefix sep s = true ->
  s = sep +:+ drop_bytes (String.length sep) s.
Proof.
  revert s. induction sep as [|c sep IH]; intros s H; [done|].
  destruct s as [|d s]; [done|]. cbn in H.
  destruct (ascii_dec c d) as [->|]; [|done].
  cbn [String.length drop_bytes]. rewrite append_cons. f_equal. by apply IH.
Qed.

Lemma drop_bytes_length (k : nat) (s : string) :
  (String.length (drop_bytes k s) <= String.length s)%nat.
Proof.
  revert s. induction k as [|k IH]; intros s; [destruct s; cbn; lia|].
  destruct s as [|c s]; cbn; [lia|]. specialize (IH s). lia.
Qed.

(** Dropping the rest of a separator is skipping it. *)
Lemma split_aux_skip (sep s : string) :
  forall k, split_aux sep k s = split_aux sep 0 (drop_bytes k s).
Proof.
  induction s as [|c s IH]; intros k.
  - by destruct k.
  - destruct k as [|k]; [done|]. cbn [split_aux drop_bytes]. apply IH.
Qed.

Lemma join_cons_byte (sep : string) (c : ascii) (cur : string) (rest : list string) :
  join sep (String c cur :: rest) = String c (join sep (cur :: rest)).
Proof. destruct rest; [done|]. cbn [join]. by rewrite append_cons. Qed.

Lemma join_cons (sep x : string) (l : list string) :
  l <> [] -> join sep (x :: l) = x +:+ sep +:+ join sep l.
Proof. by destruct l. Qed.

(** Joining the pieces of a split gives the string back. *)
Lemma join_Split (sep : string) :
  sep <> EmptyString -> forall s, join sep (Split s sep) = s.
Proof.
  intros Hsep s. unfold Split.
  remember (String.length s) as n eqn:Hn.
  assert (Hle : (String.length s <= n)%nat) by lia. clear Hn.
  revert s Hle. induction n as [|n IH]; intros s Hle.
  - destruct s; [done|cbn in Hle; lia].
  - destruct s as [|c s]; [done|]. cbn [split_aux].
    destruct (String.prefix sep (String c s)) eqn:Hp.
    + rewrite split_aux_skip.
      pose proof (prefix_drop _ _ Hp) as Hs.
      destruct sep as [|d sep]; [done|].
      cbn [String.length drop_bytes Nat.sub] in *. rewrite Nat.sub_0_r.
      pose proof (split_aux_nonempty (String d sep) (drop_bytes (String.length sep) s) 0%nat)
        as Hne.
      pose proof (drop_bytes_length (String.length sep) s) as Hlen.
      specialize (IH (drop_bytes (String.length sep) s) ltac:(cbn in Hle; lia)).
      rewrite (join_cons _ _ _ Hne), append_empty, IH. symmetry. exact Hs.
    + pose proof (split_aux_nonempty sep s 0%nat) as Hne.
      specialize (IH s ltac:(cbn in Hle; lia)).
      destruct (split_aux sep 0 s) as [|cur rest]; [done|].
      rewrite join_cons_byte. by rewrite IH.
Qed.

Lemma ReadString_no_newline (b : string) :
  contains_byte nl b = false -> ReadString b = (b, Some EOF).
Proof.
  induction b as [|c b IH]; [done|]. cbn [contains_byte ReadString].
  intros H. apply orb_false_iff in H as [-> Hb]. by rewrite (IH Hb).
Qed.

(** A header read without error is the text up to the first newline with
    that newline. *)
Lemma ReadString_header (b h : string) :
  ReadString b = (h, None) -> ends_with nl h.
Proof.
  revert h. induction b as [|c b IH]; intros h; [done|]. cbn [ReadString].
  destruct (Ascii.eqb c nl) eqn:Hc.
  - intros [= <-]. apply Ascii.eqb_eq in Hc as ->. by exists EmptyString.
  - destruct (ReadString b) as [h' e]. intros [= <- ->].
    destruct (IH h' eq_refl) as [u ->]. exists (String c u). by rewrite append_cons.
Qed.

Lemma list_ascii_of_string_app (a b : string) :
  list_ascii_of_string (a +:+ b) = (list_ascii_of_string a ++ list_ascii_of_string b)%list.
Proof.
  induction a as [|c a IH]; [done|].
  rewrite append_cons. cbn [list_ascii_of_string app]. by rewrite IH.
Qed.

Lemma rev_string_ends (d : ascii) (u : string) :
  rev_string (u +:+ String d EmptyString) = String d (rev_string u).
Proof.
  unfold rev_string. rewrite list_ascii_of_string_app, rev_app_distr. done.
Qed.

Lemma trim_left_byte_ends (c d : ascii) (u : string) :
  d <> c ->
  exists u', trim_left_byte c (u +:+ String d EmptyString) = u' +:+ String d EmptyString.
Proof.
  intros Hd. induction u as [|e u IH].
  - exists EmptyString. rewrite !append_empty. cbn [trim_left_byte].
    by apply Ascii.eqb_neq in Hd as ->.
  - rewrite append_cons. cbn [trim_left_byte]. destruct (Ascii.eqb e c); [exact IH|].
    exists (String e u). by rewrite append_cons.
Qed.

(** Trimming a byte off both ends leaves a different last byte in place. *)
Lemma Trim_ends (c d : ascii) (s : string) :
  d <> c -> ends_with d s -> ends_with d (Trim s c).
Proof.
  intros Hd [u ->]. unfold Trim.
  destruct (trim_left_byte_ends c d u Hd) as [u' ->].
  rewrite rev_string_ends. cbn [trim_left_byte].
  apply Ascii.eqb_neq in Hd as ->.
  rewrite <- rev_string_ends, rev_string_involutive. by exists u'.
Qed.

End MoreTextFacts.

(** ** Code search: further properties *)

Section MoreSearchTheorems.
Import MoreNotions.

Lemma index_nth {A} (l : list A) (i : Z) (a d : A) :
  index l i = Returned a -> nth (Z.to_nat i) l d = a.
Proof.
  unfold index. destruct ((0 <=? i) && (i <? Z.of_nat (length l))); [|done].
  destruct (l !! Z.to_nat i) as [b|] eqn:E; [|done]. intros [= <-].
  by apply nth_lookup_Some with (d := d) in E.
Qed.

(** What the loop has collected when it runs to its end. *)
Lemma collect_inl_inv (w : list string) :
  forall acc ms, collect w acc = Returned (inl ms) ->
  ms = (acc ++ map to_match w)%list /\
  Forall (fun b => snd (ReadString b) = None) w.
Proof.
  induction w as [|b w IH]; intros acc ms; cbn [collect map].
  - intros [= <-]. by rewrite app_nil_r.
  - unfold to_match. destruct (ReadString b) as [h [e|]] eqn:Hr; [done|]. cbn [fst].
    destruct (index (Split h ":") 0) as [i0|p|] eqn:E0; [|done|done]. cbn.
    destruct (index (Split h ":") 1) as [i1|p|] eqn:E1; [|done|done]. cbn.
    intros H. apply IH in H as [-> Hw].
    pose proof (index_nth _ 0 i0 EmptyString E0) as H0.
    pose proof (index_nth _ 1 i1 EmptyString E1) as H1.
    change (Z.to_nat 0) with 0%nat in H0. change (Z.to_nat 1) with 1%nat in H1.
    rewrite H0, H1.
    split; [by rewrite <- app_assoc|]. constructor; [by rewrite Hr | done].
Qed.

Lemma collect_eof (pre post : list string) (b : string) :
  forall acc, forallb block_ok pre = true ->
  contains_byte nl b = false ->
  collect (pre ++ b :: post) acc = Returned (inr EOF).
Proof.
  induction pre as [|p pre IH]; intros acc Hpre Hb.
  - cbn [app collect]. by rewrite (ReadString_no_newline b Hb).
  - cbn [forallb] in Hpre. apply andb_true_iff in Hpre as [Hp Hpre].
    cbn [app collect]. unfold block_ok in Hp.
    destruct (ReadString p) as [hp [e|]]; [done|].
    destruct (header_fields_ok hp Hp) as [-> ->]. cbn.
    by apply IH.
Qed.

(** What a returned page is made of: the window parsed block by block, or
    nothing. *)
Lemma getRangeOfMatches_returned git repoPath opts ms e :
  getRangeOfMatches git repoPath opts = Returned (ms, e) ->
  ms = [] \/
  exists selected,
    ms = map to_match selected /\
    Forall (fun b => snd (ReadString b) = None) selected.
Proof.
  unfold getRangeOfMatches.
  destruct (RunPipesInDir git (range_command opts) repoPath) as [stdout err].
  destruct (len stdout <=? 0); [intros [= <- <-]; by left|].
  destruct (slice _ _ _) as [w|p|]; [|done|done]. cbn.
  destruct (collect w []) as [[ms'|e']|p|] eqn:Hc; cbn; [| |done|done].
  - intros [= <- <-]. apply collect_inl_inv in Hc as [-> Hw].
    right. by exists w.
  - intros [= <- <-]. by left.
Qed.

Lemma string_snoc (s : string) :
  s <> EmptyString -> exists u d, s = u +:+ String d EmptyString.
Proof.
  induction s as [|c s IH]; [done|]. intros _.
  destruct s as [|c' s'].
  - by exists EmptyString, c.
  - destruct IH as (u & d & ->); [done|]. exists (String c u), d.
    by rewrite append_cons.
Qed.

Lemma ends_with_unique (d e : ascii) (u v : string) :
  u +:+ String d EmptyString = v +:+ String e EmptyString -> d = e.
Proof.
  intros H. apply (f_equal rev_string) in H.
  rewrite !rev_string_ends in H. by injection H.
Qed.

(** After the only colon of a header comes text that ends in the newline
    of the header. *)
Lemma header_tail_ends (h : string) :
  ends_with nl h -> count_byte ":" h = 1%nat ->
  ends_with nl (nth 1 (Split h ":") EmptyString).
Proof.
  intros [u Hu] Hcount.
  pose proof (Split_single_length ":" h) as Hlen. rewrite Hcount in Hlen.
  pose proof (join_Split ":" ltac:(done) h) as Hjoin.
  destruct (Split h ":") as [|a [|c [|x l]]]; try done.
  cbn [join nth] in *.
  destruct (decide (c = EmptyString)) as [->|Hc].
  - rewrite <- Hjoin in Hu. change (a +:+ ":" +:+ "") with (a +:+ ":") in Hu.
    apply ends_with_unique in Hu. done.
  - destruct (string_snoc c Hc) as (c' & d & ->). exists c'.
    rewrite <- Hjoin, <- !append_assoc in Hu.
    apply ends_with_unique in Hu. by subst.
Qed.

(** X1: with the first page as large as the block list and every block
    well-formed, the contents of the matches are the blocks, and joined by
    blank lines they are the output. *)
Theorem range_contents_rebuild_output git repoPath opts stdout err :
  RunPipesInDir git (range_command opts) repoPath = (stdout, err) ->
  stdout <> EmptyString ->
  Page opts = 1 ->
  totalBlocks stdout <= PageSize opts -> PageSize opts <= max_int64 ->
  forallb block_ok (blocks stdout) = true ->
  exists ms,
    getRangeOfMatches git repoPath opts = Returned (ms, err) /\
    map Content ms = blocks stdout /\
    join (NL +:+ NL) (map Content ms) = stdout.
Proof.
  intros Hrun Hne HP Hn Hmax Hok.
  assert (Hpos : 1 <= totalBlocks stdout).
  { unfold totalBlocks, blocks. pose proof (Split_length_pos stdout (NL +:+ NL)). lia. }
  destruct (window_bounds opts (totalBlocks stdout)) as [Hstart Hlimit];
    [lia | lia | rewrite HP; lia |].
  exists (map to_match (blocks stdout)).
  assert (Hcontent : map Content (map to_match (blocks stdout)) = blocks stdout).
  { rewrite map_map. apply map_id. }
  split; [|split; [exact Hcontent|]].
  - rewrite (getRangeOfMatches_nonempty _ _ _ _ _ Hrun Hne), Hstart, Hlimit, HP.
    rewrite slice_inside by (unfold totalBlocks in *; lia).
    replace (Z.to_nat (Z.min (1 * PageSize opts) (totalBlocks stdout) - (1 - 1) * PageSize opts))
      with (length (blocks stdout)) by (unfold totalBlocks in *; lia).
    replace (Z.to_nat ((1 - 1) * PageSize opts)) with 0%nat by lia.
    rewrite drop_0, firstn_all. cbn [mbind outcome_bind].
    by rewrite (collect_ok _ [] Hok).
  - rewrite Hcontent. by apply join_Split.
Qed.

(** The rebuilding theorem at three blocks and a page of ten. *)
Lemma range_contents_rebuild_output_witness :
  exists ms,
    getRangeOfMatches (canned three_blocks None) "repo" (search_opts "x" 1 10)
      = Returned (ms, None) /\
    map Content ms = blocks three_blocks /\
    join (NL +:+ NL) (map Content ms) = three_blocks.
Proof.
  apply (range_contents_rebuild_output (canned three_blocks None) "repo"
           (search_opts "x" 1 10) three_blocks None);
    [reflexivity | discriminate | reflexivity | vm_compute; discriminate
    | vm_compute; discriminate | reflexivity].
Defined.

(** X2: a selected block without a newline, after blocks that parse, ends the
    call with no matches and the end-of-input error of reading its header:
    what was collected and the error of the invocation are dropped. *)
Theorem range_unterminated_block git repoPath opts stdout err pre b post :
  RunPipesInDir git (range_command opts) repoPath = (stdout, err) ->
  stdout <> EmptyString ->
  slice (blocks stdout) (window_start opts)
    (window_limit opts (totalBlocks stdout)) = Returned (pre ++ b :: post)%list ->
  forallb block_ok pre = true ->
  contains_byte nl b = false ->
  getRangeOfMatches git repoPath opts = Returned ([], Some EOF).
Proof.
  intros Hrun Hne Hs Hpre Hb.
  rewrite (getRangeOfMatches_nonempty _ _ _ _ _ Hrun Hne), Hs. cbn.
  by rewrite (collect_eof pre post b [] Hpre Hb).
Qed.

(** The unterminated-block theorem at two blocks, the second without a
    newline, and a failed process. *)
Lemma range_unterminated_block_witness :
  getRangeOfMatches (canned open_ended (Some (ErrProcess "exit status 1")))
    "repo" (search_opts "x" 1 10) = Returned ([], Some EOF).
Proof.
  apply (range_unterminated_block
           (canned open_ended (Some (ErrProcess "exit status 1"))) "repo"
           (search_opts "x" 1 10) open_ended (Some (ErrProcess "exit status 1"))
           ["c1:a.go" +:+ NL +:+ "1:x"] "c2:b.go" []);
    [reflexivity | discriminate | reflexivity | reflexivity | reflexivity].
Defined.

(** X3: every returned match is determined by its content, and when the header
    of that content holds one colon, the path of the match ends in the
    newline of the header: only spaces are trimmed. *)
Theorem match_path_keeps_newline git repoPath opts ms e m :
  getRangeOfMatches git repoPath opts = Returned (ms, e) ->
  m ∈ ms ->
  m = to_match (Content m) /\
  (count_byte ":" (fst (ReadString (Content m))) = 1%nat -> ends_with nl (Path m)).
Proof.
  intros Hret Hm.
  destruct (getRangeOfMatches_returned _ _ _ _ _ Hret) as [->|(w & -> & Hw)].
  - by apply elem_of_nil in Hm.
  - apply list_elem_of_fmap in Hm as (b & -> & Hb).
    split; [done|]. cbn [Content to_match Path]. intros Hcount.
    rewrite Forall_forall in Hw. specialize (Hw b Hb).
    destruct (ReadString b) as [h o] eqn:Hr. cbn [snd fst] in *. subst o.
    apply Trim_ends; [done|].
    apply header_tail_ends; [|done]. by apply (ReadString_header b).
Qed.

(** The path theorem at the first of three blocks. *)
Lemma match_path_keeps_newline_witness :
  ends_with nl (Path (to_match ("c1:a.go" +:+ NL +:+ "1:x"))).
Proof.
  apply (match_path_keeps_newline (canned three_blocks None) "repo"
           (search_opts "x" 1 10)
           (map to_match (blocks three_blocks)) None
           (to_match ("c1:a.go" +:+ NL +:+ "1:x")));
    [reflexivity | | reflexivity].
  apply list_elem_of_fmap. exists ("c1:a.go" +:+ NL +:+ "1:x").
  split; [reflexivity|]. vm_compute. apply list_elem_of_here.
Defined.

End MoreSearchTheorems.

Section ComposedSearchTheorems.

(** The getRangeOfMatches_beyond lemma at three blocks and page 5 of size 1. *)
Lemma getRangeOfMatches_beyond_witness :
  getRangeOfMatches (canned three_blocks None) "repo" (search_opts "x" 5 1)
    = Panicked (SliceBoundsOutOfRange 4 3).
Proof.
  apply (getRangeOfMatches_beyond (canned three_blocks None) "repo"
           (search_opts "x" 5 1) three_blocks None);
    [reflexivity | discriminate | simpl; lia | simpl; lia
    | vm_compute; discriminate | vm_compute; reflexivity].
Defined.

(** X5: the page number is not validated.  On a non-empty output the call
    panics at the slice expression whenever the window start
    (page-1)*pageSize, computed in 64 bits, is negative.  For a page number
    of 0 or less and a positive pageSize the start is negative as long as
    the product does not wrap around, that is, is at least -2^63. *)
Theorem range_page_below_one_panics git repoPath opts stdout err :
  RunPipesInDir git (range_command opts) repoPath = (stdout, err) ->
  stdout <> EmptyString ->
  (window_start opts < 0 ->
   getRangeOfMatches git repoPath opts
     = Panicked (SliceBoundsOutOfRange (window_start opts)
                   (window_limit opts (totalBlocks stdout)))) /\
  (Page opts <= 0 -> 0 < PageSize opts ->
   min_int64 <= (Page opts - 1) * PageSize opts ->
   window_start opts = (Page opts - 1) * PageSize opts /\
   getRangeOfMatches git repoPath opts
     = Panicked (SliceBoundsOutOfRange ((Page opts - 1) * PageSize opts)
                   (window_limit opts (totalBlocks stdout)))).
Proof.
  intros Hrun Hne.
  assert (Hneg : window_start opts < 0 ->
            getRangeOfMatches git repoPath opts
              = Panicked (SliceBoundsOutOfRange (window_start opts)
                            (window_limit opts (totalBlocks stdout)))).
  { intros Hlt. rewrite (getRangeOfMatches_nonempty _ _ _ _ _ Hrun Hne).
    rewrite slice_outside by lia. done. }
  split; [exact Hneg|]. intros HP HS Hmin.
  assert (Hstart : window_start opts = (Page opts - 1) * PageSize opts).
  { unfold window_start, mul64, sub64.
    rewrite (wrap64_id (Page opts - 1)) by (unfold min_int64, max_int64 in *; nia).
    apply wrap64_id. unfold min_int64, max_int64 in *. nia. }
  split; [exact Hstart|]. rewrite <- Hstart. apply Hneg. rewrite Hstart. nia.
Qed.

(** The page-below-one theorem at page 0 of size 10. *)
Lemma range_page_below_one_panics_witness :
  getRangeOfMatches (canned three_blocks None) "repo" (search_opts "x" 0 10)
    = Panicked (SliceBoundsOutOfRange (-10) 0).
Proof.
  destruct (range_page_below_one_panics (canned three_blocks None) "repo"
              (search_opts "x" 0 10) three_blocks None) as [_ Hpage];
    [reflexivity | discriminate |].
  apply Hpage; [simpl; lia | simpl; lia | vm_compute; discriminate].
Defined.

(** Where the product wraps around, a page number below one need not
    panic: page -4294967295 of size 4294967296 has the window start 0 and
    returns the three blocks. *)
Example range_wrapped_page_returns :
  window_start (search_opts "x" (-4294967295) 4294967296) = 0 /\
  getRangeOfMatches (canned three_blocks None) "repo"
    (search_opts "x" (-4294967295) 4294967296)
    = Returned (map to_match (blocks three_blocks), None).
Proof. split; vm_compute; reflexivity. Qed.

(** X6: the composed search returns either a result or an error, never both
    and never neither; an error of the count phase that comes with output
    is returned whatever the fetch phase would do, and with a count phase
    that succeeds a panic of the fetch phase is a panic of the search. *)
Theorem composed_first_failure git repoPath opts :
  (forall r e,
     ShearchMatchesThisRepo git repoPath opts = Returned (r, e) ->
     (r = None /\ e <> None) \/ (r <> None /\ e = None)) /\
  (forall cout ce,
     RunPipesInDir git (count_command (Keyword opts)) repoPath = (cout, Some ce) ->
     cout <> EmptyString ->
     ShearchMatchesThisRepo git repoPath opts = Returned (None, Some ce)) /\
  (forall n p,
     getNumberOfCodeMatches git repoPath (Keyword opts) = (n, None) ->
     getRangeOfMatches git repoPath opts = Panicked p ->
     ShearchMatchesThisRepo git repoPath opts = Panicked p) /\
  (forall n ms fe,
     getNumberOfCodeMatches git repoPath (Keyword opts) = (n, None) ->
     getRangeOfMatches git repoPath opts = Returned (ms, Some fe) ->
     ShearchMatchesThisRepo git repoPath opts = Returned (None, Some fe)).
Proof.
  split; [|split; [|split]].
  - intros r e. unfold ShearchMatchesThisRepo.
    destruct (getNumberOfCodeMatches git repoPath (Keyword opts)) as [n [ce|]].
    + intros [= <- <-]. by left.
    + destruct (getRangeOfMatches git repoPath opts) as [[ms [fe|]]|p|]; cbn;
        intros [= <- <-]; [by left | by right].
  - intros cout ce Hrun Hne. unfold ShearchMatchesThisRepo.
    by rewrite (getNumberOfCodeMatches_nonempty _ _ _ _ _ Hrun Hne).
  - intros n p Hn Hr. unfold ShearchMatchesThisRepo. by rewrite Hn, Hr.
  - intros n ms fe Hn Hr. unfold ShearchMatchesThisRepo. by rewrite Hn, Hr.
Qed.

(** The first-failure theorem at a count phase that fails with output while
    the fetch phase alone would panic. *)
Lemma composed_first_failure_witness :
  getRangeOfMatches
    (two_phase (one_block, Some (ErrProcess "exit status 123")) (headless_block, None))
    "repo" (search_opts "x" 1 10) = Panicked (IndexOutOfRange 1 1) /\
  ShearchMatchesThisRepo
    (two_phase (one_block, Some (ErrProcess "exit status 123")) (headless_block, None))
    "repo" (search_opts "x" 1 10)
    = Returned (None, Some (ErrProcess "exit status 123")).
Proof.
  split; [reflexivity|].
  destruct (composed_first_failure
              (two_phase (one_block, Some (ErrProcess "exit status 123"))
                         (headless_block, None))
              "repo" (search_opts "x" 1 10)) as (_ & Hcount & _).
  apply (Hcount one_block); [reflexivity | discriminate].
Defined.

End ComposedSearchTheorems.

(** ** Summary, negative parent indices and commit counts *)

Section CommitInfoTheorems.
Import Commits Samples CommitInfo NumstatNotions.

(** The first piece of a split on one byte does not hold the byte. *)
Lemma Split_single_head (c : ascii) (s : string) :
  forall x rest, Split s (String c EmptyString) = x :: rest ->
  contains_byte c x = false.
Proof.
  unfold Split. induction s as [|d s IH]; intros x rest.
  - by intros [= <- <-].
  - cbn [split_aux]. rewrite prefix_single.
    destruct (Ascii.eqb d c) eqn:Hd; [by intros [= <- <-]|].
    destruct (split_aux (String c EmptyString) 0 s) as [|cur l]; [|].
    + intros [= <- <-]. cbn. by rewrite Hd.
    + intros [= <- <-]. cbn [contains_byte]. rewrite Hd. by apply (IH cur l).
Qed.

(** X7: the summary is the message up to its first newline: it holds no
    newline, and the message is the summary alone or the summary, a newline
    and more text.  The call returns for every message. *)
Theorem summary_first_line (c : Commit) :
  exists s,
    Summary c = Returned s /\
    contains_byte nl s = false /\
    (CommitMessage c = s \/ exists rest, CommitMessage c = s +:+ NL +:+ rest) /\
    (contains_byte nl (CommitMessage c) = false -> s = CommitMessage c).
Proof.
  unfold Summary.
  pose proof (join_Split NL ltac:(done) (CommitMessage c)) as Hjoin.
  pose proof (Split_single_head nl (CommitMessage c)) as Hhead.
  pose proof (Split_single_absent nl (CommitMessage c)) as Habs.
  fold NL in Hhead, Habs.
  pose proof (Split_length_pos (CommitMessage c) NL) as Hpos.
  destruct (Split (CommitMessage c) NL) as [|x rest]; [simpl in Hpos; lia|].
  exists x. split; [by apply (index_at _ 0%nat)|].
  split; [by apply (Hhead x rest)|]. split.
  - destruct rest as [|y l]; [by left|]. right.
    exists (join NL (y :: l)). by rewrite <- Hjoin.
  - intros Hno. specialize (Habs Hno). by destruct rest.
Qed.


(** The summary theorem at a one-line message and at a message with a body. *)
Lemma summary_first_line_witness :
  Summary (commit_with_message "fix the parser") = Returned "fix the parser" /\
  Summary (commit_with_message ("fix the parser" +:+ NL +:+ NL +:+ "details"))
    = Returned "fix the parser".
Proof.
  split; [|reflexivity].
  destruct (summary_first_line (commit_with_message "fix the parser"))
    as (s & Hs & _ & _ & Hone).
  rewrite Hs. f_equal. apply Hone. reflexivity.
Defined.

(** The Parent_negative lemma at index -1 of a commit with one parent. *)
Lemma Parent_negative_witness :
  Parent (tip_of full_repo ∅) (-1) = Panicked (IndexOutOfRange (-1) 1).
Proof. apply (Parent_negative (tip_of full_repo ∅) (-1)). lia. Defined.

Lemma length_append_byte (a : string) (d : ascii) :
  String.length (a +:+ String d EmptyString) = S (String.length a).
Proof.
  induction a as [|c a IH]; [done|]. rewrite append_cons. cbn [String.length].
  by rewrite IH.
Qed.

(** White space is trimmed off a run of digits followed by a newline. *)
Lemma TrimSpace_digits_newline (r : string) :
  digits r -> r <> EmptyString -> TrimSpace (r +:+ NL) = r.
Proof.
  intros H Hne. destruct r as [|c s]; [done|].
  assert (Hc : is_digit c = true) by (by apply Forall_cons in H as [? _]).
  unfold TrimSpace, NL.
  rewrite length_append_byte. cbn [trim_left_space].
  rewrite append_cons, (proj1 (digit_no_space c _ Hc)), <- append_cons.
  rewrite length_append_byte, rev_string_ends.
  destruct (rev_string_digits c s H) as (d & t & Hrev & Hd). rewrite Hrev.
  cbn [String.length trim_right_space_rev].
  change (space_width_rev (String nl (String d t))) with 1%nat.
  cbn [drop_bytes]. rewrite (proj2 (digit_no_space d t Hd)).
  by rewrite <- Hrev, rev_string_involutive.
Qed.

(** X9: with an old git the count is the number of pieces the output splits
    into at newlines, one more than its newlines: at least one, also for
    an empty output. *)
Theorem commits_count_fallback git repoPath revision relpath stdout :
  RunInDir git (count_commits_command true revision relpath) repoPath
    = (stdout, None) ->
  Z.of_nat (count_byte nl stdout) < max_int64 ->
  commitsCount true git repoPath revision relpath
    = (Z.of_nat (length (Split stdout NL)), None) /\
  1 <= fst (commitsCount true git repoPath revision relpath) /\
  (stdout = EmptyString ->
   commitsCount true git repoPath revision relpath = (1, None)).
Proof.
  intros Hrun Hfit.
  assert (Hc : commitsCount true git repoPath revision relpath
               = (Z.of_nat (length (Split stdout NL)), None)).
  { unfold commitsCount. rewrite Hrun. unfold NL. rewrite Split_single_length.
    unfold add64. rewrite wrap64_id by (unfold min_int64, max_int64 in *; lia).
    f_equal. lia. }
  rewrite Hc. cbn [fst]. pose proof (Split_length_pos stdout NL) as Hpos.
  split; [done|]. split; [lia|]. by intros ->.
Qed.

(** The fallback theorem at an empty log and at a log of three lines. *)
Lemma commits_count_fallback_witness :
  CommitsCount true (canned EmptyString None) "repo" "master" = (1, None) /\
  CommitsCount true (canned ("''" +:+ NL +:+ "''" +:+ NL +:+ "''") None)
    "repo" "master" = (3, None).
Proof.
  split.
  - apply (commits_count_fallback (canned EmptyString None) "repo" "master"
             EmptyString EmptyString); [reflexivity | vm_compute; reflexivity | reflexivity].
  - apply (commits_count_fallback
             (canned ("''" +:+ NL +:+ "''" +:+ NL +:+ "''") None) "repo" "master"
             EmptyString ("''" +:+ NL +:+ "''" +:+ NL +:+ "''"));
      [reflexivity | vm_compute; reflexivity].
Defined.

(** X10: with a current git an output of decimal digits and a newline is read
    as its number, or as the largest 64-bit number with a range error when
    it does not fit; an empty output is a syntax error, not a count of
    zero; an error of the process is returned with the count zero. *)
Theorem commits_count_parses git repoPath revision relpath :
  (forall r,
     digits r -> r <> EmptyString ->
     RunInDir git (count_commits_command false revision relpath) repoPath
       = (r +:+ NL, None) ->
     commitsCount false git repoPath revision relpath =
       if decimal r <=? max_int64 then (decimal r, None)
       else (max_int64, Some (ErrRange "ParseInt" r))) /\
  (RunInDir git (count_commits_command false revision relpath) repoPath
     = (EmptyString, None) ->
   commitsCount false git repoPath revision relpath
     = (0, Some (ErrSyntax "ParseInt" EmptyString))) /\
  (forall isFallback stdout e,
     RunInDir git (count_commits_command isFallback revision relpath) repoPath
       = (stdout, Some e) ->
     commitsCount isFallback git repoPath revision relpath = (0, Some e)).
Proof.
  split; [|split].
  - intros r Hr Hne Hrun. unfold commitsCount. rewrite Hrun.
    rewrite (TrimSpace_digits_newline r Hr Hne). by apply ParseInt_digits.
  - intros Hrun. unfold commitsCount. by rewrite Hrun.
  - intros isFallback stdout e Hrun. unfold commitsCount. by rewrite Hrun.
Qed.

(** The parsing theorem at the output 1234. *)
Lemma commits_count_parses_witness :
  CommitsCount false (canned ("1234" +:+ NL) None) "repo" "master" = (1234, None).
Proof.
  destruct (commits_count_parses (canned ("1234" +:+ NL) None) "repo" "master"
              EmptyString) as (Hnum & _).
  apply (Hnum "1234"); [repeat constructor | discriminate | reflexivity].
Defined.

End CommitInfoTheorems.

(** ** Submodules: the cache and malformed sections *)

Section MoreSubmoduleTheorems.
Import Commits Samples SubmoduleNotions.

(** X11: once the mapping has been returned it is the cache of the commit: the
    next call returns the same mapping and leaves the commit as it is, and
    a lookup is a lookup in that mapping. *)
Theorem submodules_cached (c c' : Commit) (m : gmap string SubModule) :
  GetSubModules c = Returned (Some m, None, c') ->
  submoduleCache c' = Some m /\
  GetSubModules c' = Returned (Some m, None, c') /\
  (forall entryname, GetSubModule c' entryname = Returned (m !! entryname, None, c')).
Proof.
  intros H.
  assert (Hcache : submoduleCache c' = Some m).
  { unfold GetSubModules in H. destruct (submoduleCache c) as [m0|] eqn:Hc.
    - by injection H as -> ->.
    - destruct (GetTreeEntryByPath (tree c) ".gitmodules") as [entry|e]; [|done].
      destruct (blob_err entry); [done|].
      destruct (scan_modules _ _ _ _) as [m1|p|]; [|done|done].
      cbn in H. by injection H as -> <-. }
  assert (Hagain : GetSubModules c' = Returned (Some m, None, c')).
  { unfold GetSubModules. by rewrite Hcache. }
  split; [done|]. split; [done|].
  intros entryname. unfold GetSubModule. by rewrite Hagain.
Qed.

(** The cache theorem at the commit with the one-section blob. *)
Lemma submodules_cached_witness :
  exists c',
    GetSubModules (tip_of full_repo (blob one_submodule))
      = Returned (Some {[ "libs/x" := {| sm_path := "libs/x";
                                         sm_url := "https://example.com/x.git" |} ]},
                  None, c') /\
    GetSubModules c'
      = Returned (Some {[ "libs/x" := {| sm_path := "libs/x";
                                         sm_url := "https://example.com/x.git" |} ]},
                  None, c').
Proof.
  eexists. split; [vm_compute; reflexivity|].
  eapply (submodules_cached (tip_of full_repo (blob one_submodule))).
  vm_compute. reflexivity.
Defined.

Lemma keyed_by_path_empty : keyed_by_path ∅.
Proof. intros k sm. by rewrite lookup_empty. Qed.

Lemma scan_modules_keyed (lines : list string) :
  forall cache ismodule path m,
  keyed_by_path cache ->
  scan_modules lines cache ismodule path = Returned m ->
  keyed_by_path m.
Proof.
  induction lines as [|text rest IH]; intros cache ismodule path m Hk;
    cbn [scan_modules].
  - by intros [= <-].
  - destruct (HasPrefix text "[submodule"); [by apply IH|].
    destruct ismodule; [|by apply IH].
    destruct (index (Split text "=") 0) as [f0|p|]; [|done|done]. cbn.
    destruct (String.eqb (TrimSpace f0) "path").
    { destruct (index (Split text "=") 1) as [f1|p|]; [|done|done]. cbn.
      by apply IH. }
    destruct (String.eqb (TrimSpace f0) "url"); [|by apply IH].
    destruct (index (Split text "=") 1) as [f1|p|]; [|done|done]. cbn.
    apply IH. intros k sm. rewrite lookup_insert.
    destruct (decide (path = k)) as [->|]; [|by apply Hk].
    by intros [= <-].
Qed.

(** X12: a mapping parsed from the blob stores every submodule under its own
    path, so a lookup that finds a submodule finds one with the path that
    was asked for. *)
Theorem submodules_keyed_by_path (c c' : Commit) :
  submoduleCache c = None ->
  (forall m, GetSubModules c = Returned (Some m, None, c') -> keyed_by_path m) /\
  (forall entryname sm,
     GetSubModule c entryname = Returned (Some sm, None, c') ->
     sm_path sm = entryname).
Proof.
  intros Hc.
  assert (Hm : forall c1 m, GetSubModules c = Returned (Some m, None, c1) ->
                            keyed_by_path m).
  { intros c1 m. unfold GetSubModules. rewrite Hc.
    destruct (GetTreeEntryByPath (tree c) ".gitmodules") as [entry|e]; [|done].
    destruct (blob_err entry); [done|].
    destruct (scan_modules _ _ _ _) as [m1|p|] eqn:Hs; [|done|done].
    cbn. intros [= <- _]. apply (scan_modules_keyed _ _ _ _ _ keyed_by_path_empty Hs). }
  split; [apply Hm|].
  intros entryname sm. unfold GetSubModule.
  destruct (GetSubModules c) as [[[[m|] [e|]] c1]|p|] eqn:Hg; cbn; try done.
  intros [= Hl <-]. exact (Hm c1 m eq_refl entryname sm Hl).
Qed.

(** The keyed-by-path theorem at the one-section blob. *)
Lemma submodules_keyed_by_path_witness :
  keyed_by_path {[ "libs/x" := {| sm_path := "libs/x";
                                  sm_url := "https://example.com/x.git" |} ]}.
Proof.
  apply (submodules_keyed_by_path (tip_of full_repo (blob one_submodule))
           (set_cache (tip_of full_repo (blob one_submodule))
              {[ "libs/x" := {| sm_path := "libs/x";
                                sm_url := "https://example.com/x.git" |} ]}));
    [reflexivity | vm_compute; reflexivity].
Defined.

Lemma scan_header (text : string) rest cache ismodule path :
  HasPrefix text "[submodule" = true ->
  scan_modules (text :: rest) cache ismodule path = scan_modules rest cache true path.
Proof. intros H. cbn [scan_modules]. by rewrite H. Qed.

Lemma scan_path (text value : string) rest cache path :
  assigns text "path" value ->
  scan_modules (text :: rest) cache true path = scan_modules rest cache true value.
Proof.
  intros (Hp & f0 & f1 & l & Hs & H0 & H1). cbn [scan_modules]. rewrite Hp, Hs.
  rewrite (index_at _ 0%nat f0) by done. cbn [mbind outcome_bind]. rewrite H0.
  cbn [String.eqb Ascii.eqb Bool.eqb]. change 1 with (Z.of_nat 1).
  rewrite (index_at (f0 :: f1 :: l) 1%nat f1) by done.
  cbn [mbind outcome_bind]. by rewrite H1.
Qed.

Lemma scan_url (text value : string) rest cache path :
  assigns text "url" value ->
  scan_modules (text :: rest) cache true path
    = scan_modules rest (<[path := {| sm_path := path; sm_url := value |}]> cache)
        false path.
Proof.
  intros (Hp & f0 & f1 & l & Hs & H0 & H1). cbn [scan_modules]. rewrite Hp, Hs.
  rewrite (index_at _ 0%nat f0) by done. cbn [mbind outcome_bind]. rewrite H0.
  cbn [String.eqb Ascii.eqb Bool.eqb]. change 1 with (Z.of_nat 1).
  rewrite (index_at (f0 :: f1 :: l) 1%nat f1) by done.
  cbn [mbind outcome_bind]. by rewrite H1.
Qed.

Lemma scan_outside (text : string) rest cache path :
  HasPrefix text "[submodule" = false ->
  scan_modules (text :: rest) cache false path = scan_modules rest cache false path.
Proof. intros H. cbn [scan_modules]. by rewrite H. Qed.

End MoreSubmoduleTheorems.

(** ** File status: one path per line, and outputs put together *)

Section MoreFileStatusTheorems.
Import FileStatus Samples StatusNotions MoreStatusNotions.

Lemma status_step_paths (fileStatus : CommitFileStatus) (text : string) :
  (length (all_paths (status_step fileStatus text))
     <= S (length (all_paths fileStatus)))%nat /\
  (Forall (fun p => p <> EmptyString) (all_paths fileStatus) ->
   Forall (fun p => p <> EmptyString) (all_paths (status_step fileStatus text))).
Proof.
  unfold status_step, all_paths.
  pose proof (fields_aux_nonempty text 0%nat []) as Hne. fold (Fields text) in Hne.
  destruct (Fields text) as [|f0 [|path rest]]; [split; [lia|done] | |].
  - destruct f0; (split; [lia|done]).
  - apply Forall_cons in Hne as [_ Hne]. apply Forall_cons in Hne as [Hpath _].
    destruct f0 as [|c f0]; [split; [lia|done]|].
    destruct (Ascii.eqb c "A"); [|destruct (Ascii.eqb c "D");
                                   [|destruct (Ascii.eqb c "M")]];
      cbn [Added Removed Modified]; rewrite ?length_app; cbn [length];
      (split; [lia|]); try done;
      rewrite !Forall_app; intros (Ha & Hr & Hm); rewrite ?Forall_app;
      repeat split; try done; by repeat constructor.
Qed.

Lemma fold_status_paths (lines : list string) :
  forall fileStatus,
  (length (all_paths (fold_left status_step lines fileStatus))
     <= length lines + length (all_paths fileStatus))%nat /\
  (Forall (fun p => p <> EmptyString) (all_paths fileStatus) ->
   Forall (fun p => p <> EmptyString)
     (all_paths (fold_left status_step lines fileStatus))).
Proof.
  induction lines as [|text rest IH]; intros fileStatus; cbn [fold_left length].
  - split; [lia|done].
  - destruct (IH (status_step fileStatus text)) as [Hlen Hne].
    destruct (status_step_paths fileStatus text) as [Hlen1 Hne1].
    split; [lia|]. intros H. by apply Hne, Hne1.
Qed.

(** X15: a returned status comes without an error; every scanned line adds at
    most one path to it, so its three lists together hold no more paths
    than the output has lines, and none of the paths is empty. *)
Theorem file_status_one_path_per_line git repoPath commitID fileStatus e :
  GetCommitFileStatus git repoPath commitID = Returned (Some fileStatus, e) ->
  e = None /\
  (length (all_paths fileStatus)
     <= length (ScanLines
                  (fst (fst (RunInDirPipeline git (status_command commitID) repoPath)))))%nat /\
  Forall (fun p => p <> EmptyString) (all_paths fileStatus).
Proof.
  unfold GetCommitFileStatus.
  destruct (RunInDirPipeline git (status_command commitID) repoPath)
    as [[stdout stderr] err]. cbn [fst].
  destruct (ScanStuck stdout); [done|]. destruct err; [done|].
  rewrite classify_fold. cbn. intros [= <- <-].
  destruct (fold_status_paths (ScanLines stdout) NewCommitFileStatus) as [Hlen Hne].
  split; [done|]. split; [cbn in Hlen; lia|]. apply Hne. constructor.
Qed.

(** The one-path-per-line theorem at the four sample lines. *)
Lemma file_status_one_path_per_line_witness :
  (length (all_paths {| Added := ["foo.txt"]; Removed := ["bar.txt"];
                        Modified := ["baz.txt"] |})
     <= length (ScanLines name_status_report))%nat /\
  Forall (fun p => p <> EmptyString) ["foo.txt"; "bar.txt"; "baz.txt"].
Proof.
  apply (file_status_one_path_per_line (canned name_status_report None)
           "repo" "bbbb"
           {| Added := ["foo.txt"]; Removed := ["bar.txt"]; Modified := ["baz.txt"] |}
           None).
  reflexivity.
Defined.

Lemma scan_aux_app (a s2 : string) :
  forall cur n,
  stuck_aux (a +:+ NL) n = false ->
  scan_aux (a +:+ NL +:+ s2) cur n
    = (scan_aux (a +:+ NL) cur n ++ ScanLines s2)%list /\
  stuck_aux (a +:+ NL +:+ s2) n = ScanStuck s2.
Proof.
  induction a as [|c a IH]; intros cur n.
  - intros _. unfold NL. rewrite !append_empty, append_cons, append_empty.
    cbn [scan_aux stuck_aux]. rewrite Ascii.eqb_refl. done.
  - rewrite !append_cons. cbn [scan_aux stuck_aux].
    destruct (Ascii.eqb c nl).
    + intros H. destruct (IH [] 0%N H) as [-> ->]. done.
    + destruct (MaxScanTokenSize <=? n + 1)%N.
      * destruct (a +:+ NL) eqn:E; [|done].
        destruct a; discriminate.
      * intros H. by apply IH.
Qed.

Lemma fold_status_append (lines : list string) :
  forall fileStatus,
  fold_left status_step lines fileStatus
    = status_append fileStatus (fold_left status_step lines NewCommitFileStatus).
Proof.
  induction lines as [|text rest IH] using rev_ind; intros fileStatus.
  - cbn. unfold status_append. cbn. rewrite !app_nil_r. by destruct fileStatus.
  - rewrite !fold_left_app. cbn [fold_left]. rewrite (IH fileStatus).
    set (f2 := fold_left status_step rest NewCommitFileStatus).
    unfold status_step, status_append.
    destruct (Fields text) as [|[|c f0] [|path l]]; try done.
    destruct (Ascii.eqb c "A"); [|destruct (Ascii.eqb c "D");
                                   [|destruct (Ascii.eqb c "M")]];
      cbn [Added Removed Modified]; by rewrite ?app_assoc.
Qed.

(** X16: outputs put together give statuses put together: when the first
    output ends in a newline and both are scanned to their end, the status
    of the first output followed by the second is the status of the first
    with the paths of the second appended list by list. *)
Theorem file_status_of_joined_outputs g1 g2 g12 repoPath commitID a s2 f1 f2
    stderr1 stderr2 stderr12 :
  RunInDirPipeline g1 (status_command commitID) repoPath = (a +:+ NL, stderr1, None) ->
  RunInDirPipeline g2 (status_command commitID) repoPath = (s2, stderr2, None) ->
  RunInDirPipeline g12 (status_command commitID) repoPath
    = (a +:+ NL +:+ s2, stderr12, None) ->
  GetCommitFileStatus g1 repoPath commitID = Returned (Some f1, None) ->
  GetCommitFileStatus g2 repoPath commitID = Returned (Some f2, None) ->
  GetCommitFileStatus g12 repoPath commitID
    = Returned (Some (status_append f1 f2), None).
Proof.
  unfold GetCommitFileStatus. intros -> -> ->.
  destruct (ScanStuck (a +:+ NL)) eqn:H1; [done|].
  destruct (ScanStuck s2) eqn:H2; [done|].
  destruct (scan_aux_app a s2 [] 0%N H1) as [Hscan Hstuck].
  unfold ScanStuck at 1. rewrite Hstuck, H2. unfold ScanLines at 3. rewrite Hscan.
  rewrite !classify_fold. cbn. intros [= <-] [= <-].
  rewrite fold_left_app. by rewrite fold_status_append.
Qed.

(** The joined-outputs theorem at two reports of two lines each. *)
Lemma file_status_of_joined_outputs_witness :
  GetCommitFileStatus (canned (first_report +:+ second_report) None) "repo" "bbbb"
    = Returned (Some {| Added := ["foo.txt"; "new.txt"];
                        Removed := ["bar.txt"];
                        Modified := ["baz.txt"] |}, None).
Proof.
  apply (file_status_of_joined_outputs
           (canned first_report None) (canned second_report None)
           (canned (first_report +:+ second_report) None) "repo" "bbbb"
           ("A" +:+ tab +:+ "foo.txt" +:+ NL +:+ "M" +:+ tab +:+ "baz.txt")
           second_report
           {| Added := ["foo.txt"]; Removed := []; Modified := ["baz.txt"] |}
           {| Added := ["new.txt"]; Removed := ["bar.txt"]; Modified := [] |}
           EmptyString EmptyString EmptyString);
    reflexivity.
Defined.

End MoreFileStatusTheorems.

(** ** Histogram and numstat: rows, panics, errors and joined outputs *)

Section MoreStatsTheorems.
Import Stats Samples StatsNotions NumstatNotions MoreStatsNotions.

Lemma commitsCountPerCollab_unfold git repoPath user stdout :
  RunPipesInDir git (collab_command user) repoPath = (stdout, None) ->
  commitsCountPerCollab git repoPath user =
    if 0 <? Z.of_nat (length (report_lines stdout)) then
      commits ← count_rows (report_lines stdout) (label user)
                  {| Info := []; Total := 0 |};
      Returned (Some commits, None)
    else Returned (Some {| Info := [placeholder (label user)]; Total := 0 |}, None).
Proof.
  intros Hrun. unfold commitsCountPerCollab. by rewrite Hrun, drop_last_Split.
Qed.

Lemma count_rows_panic (user : string) (pre post : list string) (line : string) :
  forall commits,
  forallb (contains_byte ":") pre = true ->
  contains_byte ":" line = false ->
  count_rows (pre ++ line :: post) user commits = Panicked (IndexOutOfRange 1 1).
Proof.
  induction pre as [|l pre IH]; intros commits Hpre Hline.
  - cbn [app count_rows]. by rewrite (SplitN_two_absent line Hline).
  - cbn [forallb] in Hpre. apply andb_true_iff in Hpre as [Hl Hpre].
    cbn [app count_rows].
    destruct (SplitN_two_present l Hl) as (a & b & ->).
    change (index [a; b] 0) with (Returned (A := string) a).
    change (index [a; b] 1) with (Returned (A := string) b).
    cbn [mbind outcome_bind]. by apply IH.
Qed.

(** X17: a returned histogram is never empty: it has one row for each newline
    of the output, or the one placeholder row when the output has no
    newline. *)
Theorem histogram_row_count git repoPath user stdout commits e :
  RunPipesInDir git (collab_command user) repoPath = (stdout, None) ->
  commitsCountPerCollab git repoPath user = Returned (commits, e) ->
  exists info,
    commits = Some info /\
    Info info <> [] /\
    length (Info info) = Nat.max 1 (count_byte nl stdout).
Proof.
  intros Hrun. rewrite (commitsCountPerCollab_unfold _ _ _ _ Hrun).
  pose proof (report_lines_length stdout) as Hlen.
  destruct (0 <? Z.of_nat (length (report_lines stdout))) eqn:Hpos.
  - apply Z.ltb_lt in Hpos.
    destruct (count_rows _ _ _) as [info|p|] eqn:Hc; cbn; [|done|done].
    intros [= <- <-]. exists info. split; [done|].
    rewrite (count_rows_ok _ _ _ (count_rows_returned _ _ _ _ Hc)) in Hc.
    injection Hc as <-. cbn [Info app].
    assert (Hl : length (map (row_of (label user)) (report_lines stdout))
                 = Nat.max 1 (count_byte nl stdout)) by (rewrite length_map; lia).
    split; [|exact Hl].
    intros Hnil. rewrite Hnil in Hl. cbn in Hl. lia.
  - apply Z.ltb_ge in Hpos. intros [= <- <-]. eexists. split; [done|].
    cbn [Info]. split; [done|]. cbn [length]. lia.
Qed.

(** The row-count theorem at the two sample lines. *)
Lemma histogram_row_count_witness :
  exists info,
    Some {| Info := [ {| NumCommits := 3; Date := "01-Jan-2020"; User := "all" |};
                      {| NumCommits := 2; Date := "02-Jan-2020"; User := "all" |} ];
            Total := 5 |} = Some info /\
    Info info <> [] /\
    length (Info info) = Nat.max 1 (count_byte nl two_days).
Proof.
  apply (histogram_row_count (canned two_days None) "repo" EmptyString two_days _ None);
    reflexivity.
Defined.

(** X18: a line without a colon, after lines that hold one, makes the histogram
    panic at info[1]. *)
Theorem histogram_line_without_colon_panics git repoPath user stdout pre line post :
  RunPipesInDir git (collab_command user) repoPath = (stdout, None) ->
  report_lines stdout = (pre ++ line :: post)%list ->
  forallb (contains_byte ":") pre = true ->
  contains_byte ":" line = false ->
  commitsCountPerCollab git repoPath user = Panicked (IndexOutOfRange 1 1).
Proof.
  intros Hrun Hlines Hpre Hline.
  rewrite (commitsCountPerCollab_unfold _ _ _ _ Hrun), Hlines.
  replace (0 <? Z.of_nat (length (pre ++ line :: post))) with true
    by (symmetry; apply Z.ltb_lt; rewrite length_app; cbn; lia).
  by rewrite (count_rows_panic _ _ _ _ _ Hpre Hline).
Qed.

(** The colon theorem at a second line that reads fatal error. *)
Lemma histogram_line_without_colon_panics_witness :
  commitsCountPerCollab (canned colonless None) "repo" "bob"
    = Panicked (IndexOutOfRange 1 1).
Proof.
  apply (histogram_line_without_colon_panics (canned colonless None) "repo" "bob"
           colonless ["3:01-Jan-2020"] "fatal error" []);
    reflexivity.
Defined.

Lemma numstat_line_exact (line : string) (err : option error) :
  numstat_line line err =
    (contribution line,
     match FindAllDigits line with
     | [ins; del] =>
         if decimal del <=? max_int64 then None
         else Some (ErrRange "ParseInt" del)
     | _ => err
     end).
Proof.
  unfold numstat_line, contribution.
  pose proof (runs_aux_digits line [] ltac:(constructor)) as Hruns.
  fold (FindAllDigits line) in Hruns.
  destruct (FindAllDigits line) as [|a [|b [|c l]]]; try done.
  apply Forall_cons in Hruns as [[Ha Hane] Hruns].
  apply Forall_cons in Hruns as [[Hb Hbne] _].
  rewrite (TrimSpace_digits a Ha), (TrimSpace_digits b Hb).
  rewrite (ParseInt_digits a Ha Hane), (ParseInt_digits b Hb Hbne).
  unfold run_value.
  by destruct (decimal a <=? max_int64), (decimal b <=? max_int64).
Qed.

Lemma numstat_loop_exact (lines : list string) :
  forall x y err,
  numstat_loop lines (wrap64 x) (wrap64 y) err =
    (wrap64 (x + sum_of (map fst (map contribution lines))),
     wrap64 (y + sum_of (map snd (map contribution lines))),
     fold_left (fun err line =>
                  match FindAllDigits line with
                  | [ins; del] =>
                      if decimal del <=? max_int64 then None
                      else Some (ErrRange "ParseInt" del)
                  | _ => err
                  end) lines err).
Proof.
  induction lines as [|line rest IH]; intros x y err;
    cbn [numstat_loop map sum_of fold_right fold_left].
  - do 2 f_equal; f_equal; lia.
  - rewrite numstat_line_exact.
    destruct (contribution line) as [ins del]. cbn [fst snd].
    unfold add64. rewrite !wrap64_add_l, IH.
    unfold sum_of. do 2 f_equal; f_equal; lia.
Qed.

Lemma numStatCommitsPerUser_exact git user repoPath stdout :
  RunInDir git (numstat_command user) repoPath = (stdout, None) ->
  numStatCommitsPerUser git user repoPath =
    Returned (Some {| Insertions :=
                        wrap64 (sum_of (map fst (map contribution (report_lines stdout))));
                      Deletions :=
                        wrap64 (sum_of (map snd (map contribution (report_lines stdout))));
                      Author := user;
                      Files := Z.of_nat (length (report_lines stdout)) |},
              numstat_error (report_lines stdout)).
Proof.
  intros Hrun. unfold numStatCommitsPerUser. rewrite Hrun, drop_last_Split.
  cbn [mbind outcome_bind].
  pose proof (numstat_loop_exact (report_lines stdout) 0 0 None) as Hloop.
  change (wrap64 0) with 0 in Hloop. unfold numstat_error, report_lines in *.
  rewrite Hloop. done.
Qed.

Lemma numstat_error_fit (lines : list string) :
  forall err, deletions_fit lines ->
  fold_left (fun err line =>
               match FindAllDigits line with
               | [ins; del] =>
                   if decimal del <=? max_int64 then None
                   else Some (ErrRange "ParseInt" del)
               | _ => err
               end) lines err = None \/
  fold_left (fun err line =>
               match FindAllDigits line with
               | [ins; del] =>
                   if decimal del <=? max_int64 then None
                   else Some (ErrRange "ParseInt" del)
               | _ => err
               end) lines err = err.
Proof.
  induction lines as [|line rest IH]; intros err Hfit; cbn [fold_left]; [by right|].
  apply Forall_cons in Hfit as [Hline Hrest].
  destruct (FindAllDigits line) as [|a [|b [|c l]]] eqn:E;
    try (by apply IH).
  specialize (Hline a b eq_refl). apply Z.leb_le in Hline. rewrite Hline.
  destruct (IH None Hrest) as [H|H]; left; exact H.
Qed.

(** X19: when the process succeeds the statistics are always returned, and the
    error returned with them is that of the last deletions run that was
    parsed: nil when every deletions run fits 64 bits, whatever the
    insertions runs are, and a range error together with the statistics
    when the last line with two runs has deletions that do not fit. *)
Theorem numstat_error_with_stats git user repoPath stdout :
  RunInDir git (numstat_command user) repoPath = (stdout, None) ->
  (exists stats,
     numStatCommitsPerUser git user repoPath
       = Returned (Some stats, numstat_error (report_lines stdout))) /\
  (deletions_fit (report_lines stdout) ->
   numstat_error (report_lines stdout) = None) /\
  (forall pre line ins del,
     report_lines stdout = (pre ++ [line])%list ->
     FindAllDigits line = [ins; del] ->
     max_int64 < decimal del ->
     numstat_error (report_lines stdout) = Some (ErrRange "ParseInt" del)).
Proof.
  intros Hrun. split; [|split].
  - eexists. by apply numStatCommitsPerUser_exact.
  - intros Hfit. unfold numstat_error.
    by destruct (numstat_error_fit _ None Hfit).
  - intros pre line ins del -> Hruns Hbig. unfold numstat_error.
    rewrite fold_left_app. cbn [fold_left]. rewrite Hruns.
    by replace (decimal del <=? max_int64) with false
      by (symmetry; apply Z.leb_gt; lia).
Qed.

(** The error theorem at a line whose insertions do not fit and at a line
    whose deletions do not fit. *)
Lemma numstat_error_with_stats_witness :
  numstat_error (report_lines huge_insertions) = None /\
  numstat_error (report_lines huge_deletions)
    = Some (ErrRange "ParseInt" "99999999999999999999").
Proof.
  split.
  - destruct (numstat_error_with_stats (canned huge_insertions None) "bob" "repo"
                huge_insertions) as (_ & Hfit & _); [reflexivity|].
    apply Hfit. repeat constructor. intros ins del [= <- <-]. vm_compute. discriminate.
  - destruct (numstat_error_with_stats (canned huge_deletions None) "bob" "repo"
                huge_deletions) as (_ & _ & Hlast); [reflexivity|].
    apply (Hlast [] ("2" +:+ tab +:+ "99999999999999999999" +:+ tab +:+ "README")
             "2" "99999999999999999999"); reflexivity.
Defined.

End MoreStatsTheorems.

(** ** Statistics of outputs put together *)

Section JoinedTheorems.
Import Stats Samples StatsNotions NumstatNotions MoreStatsNotions JoinedNotions.

(** Splitting on a byte splits on each side of an occurrence of it. *)
Lemma Split_single_app (c : ascii) (a b : string) :
  Split (a +:+ String c b) (String c EmptyString)
    = (Split a (String c EmptyString) ++ Split b (String c EmptyString))%list.
Proof.
  unfold Split. induction a as [|d a IH].
  - rewrite append_empty. cbn [split_aux]. rewrite prefix_single, Ascii.eqb_refl. done.
  - rewrite append_cons. cbn [split_aux]. rewrite !prefix_single.
    destruct (Ascii.eqb d c); cbn [String.length Nat.sub].
    + by rewrite IH.
    + rewrite IH.
      pose proof (split_aux_nonempty (String c EmptyString) a 0%nat) as Hne.
      by destruct (split_aux (String c EmptyString) 0 a).
Qed.

Lemma report_lines_app (a s2 : string) :
  report_lines (a +:+ NL +:+ s2) = (Split a NL ++ report_lines s2)%list.
Proof.
  unfold report_lines, NL.
  change (a +:+ String nl EmptyString +:+ s2) with (a +:+ String nl (EmptyString +:+ s2)).
  rewrite append_empty, Split_single_app, length_app.
  pose proof (Split_length_pos s2 (String nl EmptyString)) as Hpos.
  rewrite take_app_ge by lia. f_equal. f_equal. lia.
Qed.

Lemma report_lines_newline (a : string) : report_lines (a +:+ NL) = Split a NL.
Proof.
  pose proof (report_lines_app a EmptyString) as H.
  rewrite append_nil_r in H. rewrite H. cbn. by rewrite app_nil_r.
Qed.

Lemma sum_of_app (l1 l2 : list Z) : sum_of (l1 ++ l2) = sum_of l1 + sum_of l2.
Proof.
  unfold sum_of. induction l1 as [|x l1 IH]; cbn [app fold_right]; lia.
Qed.

Lemma wrap64_add (x y : Z) : wrap64 (x + y) = add64 (wrap64 x) (wrap64 y).
Proof.
  unfold add64. rewrite wrap64_add_l.
  rewrite (Z.add_comm x (wrap64 y)), wrap64_add_l. f_equal. lia.
Qed.

(** X20: numstat outputs put together give statistics added up: when the first
    output ends in a newline, the insertions and deletions of the first
    output followed by the second are the 64-bit sums of those of the two,
    and the files are the sum of the files. *)
Theorem numstat_of_joined_outputs g1 g2 g12 user repoPath a s2 st1 st2 e1 e2 :
  RunInDir g1 (numstat_command user) repoPath = (a +:+ NL, None) ->
  RunInDir g2 (numstat_command user) repoPath = (s2, None) ->
  RunInDir g12 (numstat_command user) repoPath = (a +:+ NL +:+ s2, None) ->
  numStatCommitsPerUser g1 user repoPath = Returned (Some st1, e1) ->
  numStatCommitsPerUser g2 user repoPath = Returned (Some st2, e2) ->
  exists e12,
    numStatCommitsPerUser g12 user repoPath
      = Returned (Some (stats_add user st1 st2), e12).
Proof.
  intros H1 H2 H12.
  rewrite (numStatCommitsPerUser_exact _ _ _ _ H1),
          (numStatCommitsPerUser_exact _ _ _ _ H2),
          (numStatCommitsPerUser_exact _ _ _ _ H12).
  rewrite report_lines_app, report_lines_newline.
  intros [= <- _] [= <- _].
  exists (numstat_error (Split a NL ++ report_lines s2)).
  unfold stats_add. cbn [Insertions Deletions Files].
  rewrite !map_app, !sum_of_app, !wrap64_add, length_app.
  do 4 f_equal. lia.
Qed.

(** The joined-numstat theorem at two outputs of one line each. *)
Lemma numstat_of_joined_outputs_witness :
  exists e12,
    numStatCommitsPerUser (canned (numstat_first +:+ numstat_second) None) "bob" "repo"
      = Returned (Some {| Insertions := 13; Deletions := 3;
                          Author := "bob"; Files := 2 |}, e12).
Proof.
  apply (numstat_of_joined_outputs
           (canned numstat_first None) (canned numstat_second None)
           (canned (numstat_first +:+ numstat_second) None) "bob" "repo"
           ("10" +:+ tab +:+ "2" +:+ tab +:+ "README") numstat_second
           {| Insertions := 10; Deletions := 2; Author := "bob"; Files := 1 |}
           {| Insertions := 3; Deletions := 1; Author := "bob"; Files := 1 |}
           None None);
    reflexivity.
Defined.

(** X21: histogram outputs put together give histograms put together, when
    each output has a line: the rows of the first output followed by the
    second are the rows of the two in order and the total is the 64-bit
    sum of the totals. *)
Theorem histogram_of_joined_outputs g1 g2 g12 repoPath user a s2 h1 h2 :
  RunPipesInDir g1 (collab_command user) repoPath = (a +:+ NL, None) ->
  RunPipesInDir g2 (collab_command user) repoPath = (s2, None) ->
  RunPipesInDir g12 (collab_command user) repoPath = (a +:+ NL +:+ s2, None) ->
  contains_byte nl s2 = true ->
  commitsCountPerCollab g1 repoPath user = Returned (Some h1, None) ->
  commitsCountPerCollab g2 repoPath user = Returned (Some h2, None) ->
  commitsCountPerCollab g12 repoPath user
    = Returned (Some (histogram_append h1 h2), None).
Proof.
  intros H1 H2 H12 Hnl.
  rewrite (commitsCountPerCollab_unfold _ _ _ _ H1),
          (commitsCountPerCollab_unfold _ _ _ _ H2),
          (commitsCountPerCollab_unfold _ _ _ _ H12).
  rewrite report_lines_app, report_lines_newline.
  pose proof (Split_length_pos a NL) as Ha.
  pose proof (report_lines_length s2) as Hs2.
  rewrite count_byte_contains in Hnl. apply negb_true_iff, Nat.eqb_neq in Hnl.
  replace (0 <? Z.of_nat (length (Split a NL))) with true
    by (symmetry; apply Z.ltb_lt; lia).
  replace (0 <? Z.of_nat (length (report_lines s2))) with true
    by (symmetry; apply Z.ltb_lt; lia).
  replace (0 <? Z.of_nat (length (Split a NL ++ report_lines s2))) with true
    by (symmetry; apply Z.ltb_lt; rewrite length_app; lia).
  destruct (count_rows (Split a NL) _ _) as [r1|p|] eqn:E1; cbn; [|done|done].
  destruct (count_rows (report_lines s2) _ _) as [r2|p|] eqn:E2; cbn; [|done|done].
  intros [= <-] [= <-].
  pose proof (count_rows_returned _ _ _ _ E1) as C1.
  pose proof (count_rows_returned _ _ _ _ E2) as C2.
  rewrite (count_rows_ok _ _ _ C1) in E1. rewrite (count_rows_ok _ _ _ C2) in E2.
  injection E1 as <-. injection E2 as <-.
  rewrite count_rows_ok by (rewrite forallb_app; by rewrite C1, C2).
  cbn [mbind outcome_bind Info Total app]. do 3 f_equal.
  unfold histogram_append. cbn [Info Total]. rewrite !map_app. f_equal.
  change 0 with (wrap64 0). rewrite !fold_add64.
  change (fold_right Z.add 0) with sum_of.
  rewrite sum_of_app, !Z.add_0_l. apply wrap64_add.
Qed.

(** The joined-histogram theorem at two outputs of one day each. *)
Lemma histogram_of_joined_outputs_witness :
  commitsCountPerCollab (canned (day_one +:+ day_two) None) "repo" EmptyString
    = Returned (Some {| Info := [ {| NumCommits := 3; Date := "01-Jan-2020";
                                     User := "all" |};
                                  {| NumCommits := 2; Date := "02-Jan-2020";
                                     User := "all" |} ];
                        Total := 5 |}, None).
Proof.
  apply (histogram_of_joined_outputs
           (canned day_one None) (canned day_two None)
           (canned (day_one +:+ day_two) None) "repo" EmptyString
           "3:01-Jan-2020" day_two
           {| Info := [ {| NumCommits := 3; Date := "01-Jan-2020"; User := "all" |} ];
              Total := 3 |}
           {| Info := [ {| NumCommits := 2; Date := "02-Jan-2020"; User := "all" |} ];
              Total := 2 |});
    reflexivity.
Defined.

End JoinedTheorems.

(** ** Commit histogram: what a count field counts as *)

Section CountTheorems.
Import Stats Samples StatsNotions NumstatNotions CountNotions.

Lemma leading_digits_digits (s : string) : digits (leading_digits s).
Proof.
  unfold digits. induction s as [|c s IH]; cbn [leading_digits]; [constructor|].
  destruct (is_digit c) eqn:Hc; [|constructor].
  cbn [list_ascii_of_string]. by constructor.
Qed.

(** The digit loop on any text: it saturates as soon as the leading digits
    exceed 64 bits, fails at a byte that is no digit met before that, and
    gives the number otherwise. *)
Lemma parse_uint_leading (d : string) :
  forall n, 0 <= n <= max_uint64 ->
  parse_uint_aux d n =
    if max_uint64 <? decimal_from (leading_digits d) n then (max_uint64, Some NumRange)
    else if String.eqb (leading_digits d) d then (decimal_from d n, None)
    else (0, Some NumSyntax).
Proof.
  induction d as [|c d IH]; intros n Hn; cbn [parse_uint_aux leading_digits].
  - cbn [decimal_from String.eqb].
    replace (max_uint64 <? n) with false by (symmetry; apply Z.ltb_ge; lia). done.
  - destruct (is_digit c) eqn:Hc.
    + pose proof (digit_value c Hc) as Hd.
      pose proof (decimal_from_mono _ (leading_digits_digits d)
                    (n * 10 + (Z.of_N (byte c) - 48))) as Hmono.
      assert (Hcut : max_uint64 / 10 + 1 = 1844674407370955162) by reflexivity.
      assert (Hmax : max_uint64 = 18446744073709551615) by reflexivity.
      cbn [decimal_from String.eqb]. rewrite Ascii.eqb_refl, Hcut.
      destruct (1844674407370955162 <=? n) eqn:E1.
      * apply Z.leb_le in E1.
        replace (max_uint64 <? decimal_from (leading_digits d)
                                 (n * 10 + (Z.of_N (byte c) - 48)))
          with true by (symmetry; apply Z.ltb_lt; lia). done.
      * apply Z.leb_gt in E1.
        destruct (max_uint64 <? n * 10 + (Z.of_N (byte c) - 48)) eqn:E2.
        -- apply Z.ltb_lt in E2.
           replace (max_uint64 <? decimal_from (leading_digits d)
                                    (n * 10 + (Z.of_N (byte c) - 48)))
             with true by (symmetry; apply Z.ltb_lt; lia). done.
        -- apply Z.ltb_ge in E2. apply IH. lia.
    + cbn [decimal_from String.eqb].
      replace (max_uint64 <? n) with false by (symmetry; apply Z.ltb_ge; lia). done.
Qed.

(** [ParseInt] after the sign. *)
Lemma ParseUint_signed (neg : bool) (d s : string) :
  fst (match ParseUint d with
       | (_, Some NumSyntax) => (0, Some (num_err NumSyntax s))
       | (un, _) =>
           if negb neg && (2 ^ 63 <=? un) then (max_int64, Some (num_err NumRange s))
           else if neg && (2 ^ 63 <? un) then (min_int64, Some (num_err NumRange s))
           else (if neg then - un else un, None)
       end) = signed_value neg d.
Proof.
  assert (Hmax : max_uint64 = 18446744073709551615) by reflexivity.
  assert (Hpow : 2 ^ 63 = 9223372036854775808) by reflexivity.
  unfold signed_value. destruct d as [|c d]; [done|].
  unfold ParseUint. rewrite (parse_uint_leading _ 0) by (rewrite Hmax; lia).
  fold (decimal (leading_digits (String c d))). fold (decimal (String c d)).
  rewrite Hpow.
  destruct (max_uint64 <? decimal (leading_digits (String c d))) eqn:E1.
  - replace (9223372036854775808 <=? max_uint64) with true by reflexivity.
    replace (9223372036854775808 <? max_uint64) with true by reflexivity.
    by destruct neg.
  - change (String.eqb (String c d) EmptyString) with false. cbn [orb].
    destruct (String.eqb (leading_digits (String c d)) (String c d)) eqn:E2;
      cbn [negb]; [|done].
    destruct neg; cbn [negb andb].
    + by destruct (9223372036854775808 <? decimal (String c d)).
    + by destruct (9223372036854775808 <=? decimal (String c d)).
Qed.

(** The number [ParseInt] hands back, error or not, for any text. *)
Lemma ParseInt_value (s : string) : fst (ParseInt s) = count_value s.
Proof.
  destruct s as [|c s]; [done|].
  unfold ParseInt, count_value. apply ParseUint_signed.
Qed.

(** C7, amended: with no lines there is exactly one placeholder row with
    NumCommits 0 and Date 00-000-0000, and Total is 0; when every line
    holds a colon there is one row per line; whenever a result is
    returned, no error comes with it, Total is the 64-bit sum of NumCommits
    over the rows and every row carries the user, or the label all for an
    empty user.  A count field counts as [count_value] of its trimmed
    text: after an optional sign, digits that exceed the unsigned 64-bit
    range count as the nearest bound of the signed range, whatever follows
    them; otherwise a text without a digit or with a byte that is no digit
    counts as 0; otherwise the decimal numeral counts as its number, or as
    the nearest bound when the number is outside the signed range.  So an
    unsigned numeral counts as the smaller of its number and 2^63-1, and
    twenty nines followed by a letter count as 2^63-1.  The two sample
    lines give Total 5 and their two rows. *)
Theorem histogram_totals git repoPath user stdout :
  RunPipesInDir git (collab_command user) repoPath = (stdout, None) ->
  (report_lines stdout = [] ->
   commitsCountPerCollab git repoPath user
     = Returned (Some {| Info := [placeholder (label user)]; Total := 0 |}, None)) /\
  (report_lines stdout <> [] ->
   forallb (contains_byte ":") (report_lines stdout) = true ->
   commitsCountPerCollab git repoPath user
     = Returned (Some {| Info := map (row_of (label user)) (report_lines stdout);
                         Total := wrap64 (sum_commits
                                    (map (row_of (label user)) (report_lines stdout))) |},
                 None)) /\
  (forall commits e,
     commitsCountPerCollab git repoPath user = Returned (commits, e) ->
     e = None /\
     exists info, commits = Some info /\
       Total info = wrap64 (sum_commits (Info info)) /\
       Forall (fun row => User row = label user) (Info info)) /\
  ((forall field, count_of field = count_value (TrimSpace field)) /\
   (forall field v e,
      ParseInt (TrimSpace field) = (v, Some e) ->
      (e = ErrSyntax "ParseInt" (TrimSpace field) /\ count_of field = 0) \/
      (e = ErrRange "ParseInt" (TrimSpace field) /\
       (count_of field = max_int64 \/ count_of field = min_int64))) /\
   (forall field,
      digits (TrimSpace field) -> TrimSpace field <> EmptyString ->
      count_of field = Z.min (decimal (TrimSpace field)) max_int64) /\
   count_of nines_and_letter = max_int64 /\
   snd (ParseInt (TrimSpace nines_and_letter))
     = Some (ErrRange "ParseInt" nines_and_letter)) /\
  (stdout = two_days ->
   commitsCountPerCollab git repoPath user
     = Returned (Some {| Info := [ {| NumCommits := 3; Date := "01-Jan-2020";
                                      User := label user |};
                                   {| NumCommits := 2; Date := "02-Jan-2020";
                                      User := label user |} ];
                         Total := 5 |}, None)).
Proof.
  intros Hrun.
  assert (Hunfold : commitsCountPerCollab git repoPath user =
    if 0 <? Z.of_nat (length (report_lines stdout)) then
      commits ← count_rows (report_lines stdout) (label user)
                  {| Info := []; Total := 0 |};
      Returned (Some commits, None)
    else Returned (Some {| Info := [placeholder (label user)]; Total := 0 |}, None)).
  { unfold commitsCountPerCollab. rewrite Hrun, drop_last_Split. done. }
  assert (Hsome : report_lines stdout <> [] ->
                  (0 <? Z.of_nat (length (report_lines stdout))) = true).
  { intros Hne. apply Z.ltb_lt. destruct (report_lines stdout); [done|simpl; lia]. }
  assert (Hrows : forallb (contains_byte ":") (report_lines stdout) = true ->
    count_rows (report_lines stdout) (label user) {| Info := []; Total := 0 |}
      = Returned {| Info := map (row_of (label user)) (report_lines stdout);
                    Total := wrap64 (sum_commits
                               (map (row_of (label user)) (report_lines stdout))) |}).
  { intros Hcolon. rewrite (count_rows_ok _ _ _ Hcolon). cbn [Info Total app].
    change 0 with (wrap64 0) at 1. rewrite fold_add64. done. }
  split; [|split; [|split; [|split]]].
  - intros Hnil. rewrite Hunfold, Hnil. done.
  - intros Hne Hcolon. rewrite Hunfold, (Hsome Hne), (Hrows Hcolon). done.
  - intros commits e Hret. rewrite Hunfold in Hret.
    destruct (0 <? Z.of_nat (length (report_lines stdout))) eqn:Hlen.
    + destruct (count_rows _ _ _) as [info|p|] eqn:Hc; cbn in Hret; try done.
      injection Hret as <- <-. split; [done|]. exists info. split; [done|].
      pose proof (Hrows (count_rows_returned _ _ _ _ Hc)) as Heq.
      injection Heq as ->. cbn [Info Total]. split; [done|].
      apply Forall_map, Forall_true. done.
    + injection Hret as <- <-. split; [done|]. eexists. split; [done|].
      cbn [Info Total]. split; [done|]. by repeat constructor.
  - split; [|split; [|split; [|split]]].
    + intros field. apply ParseInt_value.
    + intros field v e Hp. unfold count_of. rewrite Hp. cbn [fst].
      by apply ParseInt_error.
    + intros field Hd Hne. unfold count_of. rewrite (ParseInt_digits _ Hd Hne).
      destruct (decimal (TrimSpace field) <=? max_int64) eqn:E; cbn [fst].
      * apply Z.leb_le in E. lia.
      * apply Z.leb_gt in E. lia.
    + vm_compute. reflexivity.
    + vm_compute. reflexivity.
  - intros ->. rewrite Hunfold. vm_compute. reflexivity.
Qed.

(** The histogram theorem at the two sample lines and at an empty output. *)
Lemma histogram_totals_witness :
  commitsCountPerCollab (canned two_days None) "repo" EmptyString
    = Returned (Some {| Info := [ {| NumCommits := 3; Date := "01-Jan-2020";
                                     User := "all" |};
                                  {| NumCommits := 2; Date := "02-Jan-2020";
                                     User := "all" |} ];
                        Total := 5 |}, None) /\
  commitsCountPerCollab (canned EmptyString None) "repo" "bob"
    = Returned (Some {| Info := [ {| NumCommits := 0; Date := "00-000-0000";
                                     User := "bob" |} ];
                        Total := 0 |}, None).
Proof.
  split.
  - destruct (histogram_totals (canned two_days None) "repo" EmptyString two_days)
      as (_ & _ & _ & _ & Hsample); [reflexivity|].
    apply Hsample. reflexivity.
  - destruct (histogram_totals (canned EmptyString None) "repo" "bob" EmptyString)
      as (Hnone & _); [reflexivity|].
    apply Hnone. reflexivity.
Defined.

(** C7 as stated fails: the count field 9223372036854775808 fails integer
    parsing and its row counts 9223372036854775807, not 0. *)
Lemma failed_count_is_not_zero :
  (exists e, snd (ParseInt (TrimSpace "9223372036854775808")) = Some e) /\
  commitsCountPerCollab (canned huge_count None) "repo" "bob"
    = Returned (Some {| Info := [ {| NumCommits := 9223372036854775807;
                                     Date := "01-Jan-2020"; User := "bob" |} ];
                        Total := 9223372036854775807 |}, None).
Proof. split; [eexists|]; vm_compute; reflexivity. Qed.

End CountTheorems.

(** ** Submodules: sections and the pending path *)

Section PendingPathTheorems.
Import Commits Samples SubmoduleNotions SectionNotions.

Lemma index_head {A} (l : list A) (d : A) :
  (1 <= length l)%nat -> index l 0 = Returned (nth 0 l d).
Proof.
  destruct l as [|a l]; [simpl; lia|]. intros _.
  exact (index_at (a :: l) 0%nat a eq_refl).
Qed.

Lemma index_second {A} (l : list A) (d : A) :
  (1 <= length l)%nat ->
  index l 1 = Returned (nth 1 l d) \/
  (length l = 1%nat /\ index l 1 = Panicked (IndexOutOfRange 1 1)).
Proof.
  destruct l as [|a [|b l]]; [simpl; lia| |]; intros _.
  - right. split; [done|]. by rewrite index_beyond.
  - left. exact (index_at (a :: b :: l) 1%nat b eq_refl).
Qed.

(** The loop over the lines is the loop over the first lines followed by
    the loop over the others from the state reached. *)
Lemma scan_modules_app (pre rest : list string) :
  forall cache ismodule path,
  scan_modules (pre ++ rest) cache ismodule path
    = ('(cache', ismodule', path') ← scan_state pre cache ismodule path;
       scan_modules rest cache' ismodule' path').
Proof.
  induction pre as [|text pre IH]; intros cache ismodule path; [done|].
  cbn [app scan_modules scan_state].
  destruct (HasPrefix text "[submodule"); [apply IH|].
  destruct ismodule; [|apply IH].
  destruct (index (Split text "=") 0) as [f0|p|]; [|done|done].
  cbn [mbind outcome_bind].
  destruct (String.eqb (TrimSpace f0) "path").
  { destruct (index (Split text "=") 1) as [f1|p|]; [|done|done].
    cbn [mbind outcome_bind]. apply IH. }
  destruct (String.eqb (TrimSpace f0) "url"); [|apply IH].
  destruct (index (Split text "=") 1) as [f1|p|]; [|done|done].
  cbn [mbind outcome_bind]. apply IH.
Qed.

(** The mapping the loop returns is the mapping of the state it reaches. *)
Lemma scan_modules_state (lines : list string) cache ismodule path :
  scan_modules lines cache ismodule path
    = ('(cache', _, _) ← scan_state lines cache ismodule path; Returned cache').
Proof.
  rewrite <- (app_nil_r lines) at 1. rewrite scan_modules_app.
  by destruct (scan_state lines cache ismodule path) as [[[c' i'] p']|p|].
Qed.

(** The loop either panics at fields[1] or reaches the section state that
    [line_step] computes. *)
Lemma scan_state_reached (pre : list string) :
  forall cache ismodule path,
  scan_state pre cache ismodule path = Panicked (IndexOutOfRange 1 1) \/
  exists cache',
    scan_state pre cache ismodule path
      = Returned (cache', fst (fold_left line_step pre (ismodule, path)),
                  snd (fold_left line_step pre (ismodule, path))).
Proof.
  induction pre as [|text pre IH]; intros cache ismodule path.
  { right. by exists cache. }
  cbn [scan_state fold_left line_step].
  destruct (HasPrefix text "[submodule"); [apply IH|].
  destruct ismodule; [|apply IH].
  unfold line_key, line_value.
  rewrite (index_head _ EmptyString (Split_length_pos text "=")).
  cbn [mbind outcome_bind].
  destruct (String.eqb (TrimSpace (nth 0 (Split text "=") EmptyString)) "path").
  { destruct (index_second (Split text "=") EmptyString (Split_length_pos text "="))
      as [-> | [_ ->]]; [|by left].
    cbn [mbind outcome_bind]. apply IH. }
  destruct (String.eqb (TrimSpace (nth 0 (Split text "=") EmptyString)) "url");
    [|apply IH].
  destruct (index_second (Split text "=") EmptyString (Split_length_pos text "="))
    as [-> | [_ ->]]; [|by left].
  cbn [mbind outcome_bind]. apply IH.
Qed.

Lemma scan_state_returned (pre : list string) cache ismodule path cache' ismodule' path' :
  scan_state pre cache ismodule path = Returned (cache', ismodule', path') ->
  ismodule' = fst (fold_left line_step pre (ismodule, path)) /\
  path' = snd (fold_left line_step pre (ismodule, path)).
Proof.
  intros H. destruct (scan_state_reached pre cache ismodule path) as [Hp | [c Hr]].
  - by rewrite Hp in H.
  - rewrite Hr in H. by injection H as _ <- <-.
Qed.

(** Inside a section a key without a value stops the loop. *)
Lemma scan_key_without_value (text : string) rest cache path :
  key_without_value text ->
  scan_modules (text :: rest) cache true path = Panicked (IndexOutOfRange 1 1).
Proof.
  intros (Ht & Hno & Hkey). cbn [scan_modules]. rewrite Ht.
  pose proof (Split_single_absent "=" text Hno) as Hlen.
  pose proof (join_Split "=" ltac:(done) text) as Hjoin.
  destruct (Split text "=") as [|f0 [|f1 l]]; try done.
  cbn [join] in Hjoin. subst f0.
  change (index [text] 0) with (Returned (A := string) text).
  change (index [text] 1) with (Panicked (A := string) (IndexOutOfRange 1 1)).
  cbn [mbind outcome_bind].
  by destruct Hkey as [-> | ->].
Qed.

(** The pending path is empty or the value of a path line read before. *)
Lemma pending_path_origin (pre : list string) :
  forall ismodule path,
  snd (fold_left line_step pre (ismodule, path)) = path \/
  exists line, In line pre /\ line_key line = "path" /\
    snd (fold_left line_step pre (ismodule, path)) = line_value line.
Proof.
  induction pre as [|text pre IH]; intros ismodule path; [by left|].
  cbn [fold_left line_step].
  assert (Hlater : forall i p,
            (snd (fold_left line_step pre (i, p)) = p \/
             exists line, In line (text :: pre) /\ line_key line = "path" /\
               snd (fold_left line_step pre (i, p)) = line_value line)).
  { intros i p. destruct (IH i p) as [H | (line & Hin & Hk & Hv)]; [by left|].
    right. exists line. split; [by right|done]. }
  destruct (HasPrefix text "[submodule"); [apply Hlater|].
  destruct ismodule; [|apply Hlater].
  destruct (String.eqb (line_key text) "path") eqn:Hkey.
  - apply String.eqb_eq in Hkey. right.
    destruct (IH true (line_value text)) as [H | (line & Hin & Hk & Hv)].
    + exists text. split; [by left|done].
    + exists line. split; [by right|done].
  - destruct (String.eqb (line_key text) "url"); apply Hlater.
Qed.

(** X13: a line inside a section whose trimmed text is path or url and that
    holds no equals sign makes the call panic at fields[1], wherever in the
    blob the line stands; a line is inside a section when a section marker
    has been read and no url line of a section since. *)
Theorem submodule_key_without_value_panics (c : Commit) entry pre text rest :
  submoduleCache c = None ->
  entries (tree c) !! ".gitmodules" = Some entry ->
  blob_err entry = None ->
  ScanLines (blob_data entry) = (pre ++ text :: rest)%list ->
  in_section pre = true ->
  key_without_value text ->
  GetSubModules c = Panicked (IndexOutOfRange 1 1) /\
  (forall entryname, GetSubModule c entryname = Panicked (IndexOutOfRange 1 1)).
Proof.
  intros Hc He Herr Hlines Hin Hkey.
  assert (Hg : GetSubModules c = Panicked (IndexOutOfRange 1 1)).
  { unfold GetSubModules, GetTreeEntryByPath. rewrite Hc, He, Herr, Hlines.
    rewrite scan_modules_app.
    destruct (scan_state_reached pre ∅ false EmptyString) as [-> | [cache ->]];
      [done|].
    cbn [mbind outcome_bind]. fold (in_section pre). rewrite Hin.
    by rewrite scan_key_without_value. }
  split; [done|]. intros entryname. unfold GetSubModule. by rewrite Hg.
Qed.

(** The key-without-value theorem at a section whose third line is url. *)
Lemma submodule_key_without_value_panics_witness :
  GetSubModules (tip_of full_repo (blob bare_url)) = Panicked (IndexOutOfRange 1 1).
Proof.
  apply (submodule_key_without_value_panics (tip_of full_repo (blob bare_url))
           {| blob_data := bare_url; blob_err := None |}
           ["[submodule x]"; tab +:+ "path = libs/x"] (tab +:+ "url") []);
    try reflexivity.
  split; [reflexivity|]. split; [reflexivity|]. right. reflexivity.
Defined.

(** X14: the pending path is never reset.  When the lines read so far leave
    the mapping [cache] and the pending path [path], a further section
    that begins with its url line is stored under [path], replacing what
    the mapping held there, and a path line that follows the url line in
    that section is ignored; [path] is what [pending_path] computes: the
    value of the last path line read inside a section, or the empty path
    when there was none. *)
Theorem submodule_pending_path (c : Commit) entry (pre : list string)
    (h l_url l_path u p : string) cache ismodule path :
  submoduleCache c = None ->
  entries (tree c) !! ".gitmodules" = Some entry ->
  blob_err entry = None ->
  scan_state pre ∅ false EmptyString = Returned (cache, ismodule, path) ->
  HasPrefix h "[submodule" = true ->
  assigns l_url "url" u -> assigns l_path "path" p ->
  path = pending_path pre /\
  (path = EmptyString \/
   exists line, In line pre /\ line_key line = "path" /\ path = line_value line) /\
  (ScanLines (blob_data entry) = (pre ++ [h; l_url])%list ->
   exists c',
     GetSubModules c
       = Returned (Some (<[path := {| sm_path := path; sm_url := u |}]> cache),
                   None, c')) /\
  (ScanLines (blob_data entry) = (pre ++ [h; l_url; l_path])%list ->
   exists c',
     GetSubModules c
       = Returned (Some (<[path := {| sm_path := path; sm_url := u |}]> cache),
                   None, c')).
Proof.
  intros Hc He Herr Hpre Hh Hurl Hpath.
  destruct (scan_state_returned _ _ _ _ _ _ _ Hpre) as [_ Hp].
  split; [exact Hp|]. split.
  { rewrite Hp. apply pending_path_origin. }
  unfold GetSubModules, GetTreeEntryByPath. rewrite Hc, He, Herr. split.
  - intros ->. rewrite scan_modules_app, Hpre. cbn [mbind outcome_bind].
    rewrite (scan_header h) by done. rewrite (scan_url l_url u) by done.
    cbn. by eexists.
  - intros ->. rewrite scan_modules_app, Hpre. cbn [mbind outcome_bind].
    rewrite (scan_header h) by done. rewrite (scan_url l_url u) by done.
    rewrite (scan_outside l_path) by apply Hpath. cbn. by eexists.
Qed.

(** The pending-path theorem at two sections, the second with its url
    before its path: the second url is stored under the first path and the
    second path under no key. *)
Lemma submodule_pending_path_witness :
  exists c',
    GetSubModules (tip_of full_repo (blob late_path))
      = Returned (Some (<["libs/a" := {| sm_path := "libs/a";
                                         sm_url := "https://example.com/b.git" |}]>
                          {[ "libs/a" := {| sm_path := "libs/a";
                                            sm_url := "https://example.com/a.git" |} ]}),
                  None, c').
Proof.
  apply (submodule_pending_path (tip_of full_repo (blob late_path))
           {| blob_data := late_path; blob_err := None |}
           ["[submodule a]"; "path = libs/a"; "url = https://example.com/a.git"]
           "[submodule b]" "url = https://example.com/b.git" "path = libs/b"
           "https://example.com/b.git" "libs/b"
           {[ "libs/a" := {| sm_path := "libs/a";
                             sm_url := "https://example.com/a.git" |} ]}
           false "libs/a");
    try reflexivity;
    (split; [reflexivity|]; eexists _, _, _; split; [vm_compute; reflexivity|];
     split; vm_compute; reflexivity).
Defined.

End PendingPathTheorems.
